(** * netdev: the device stream

    A shallow embedding of [netdev/core/device_stream.py] and the properties
    of its sanitizer, its pattern compiler and its command dispatcher.

    Python [str] values are modelled as [string]; the characters the code
    names are the line feed, the carriage return and the backspace. *)

From Stdlib Require Import Strings.String Strings.Ascii Lists.List Bool.Bool.
From Stdlib Require Import ZArith.ZArith Arith.PeanoNat micromega.Lia.
Import ListNotations.

Local Open Scope list_scope.
Local Open Scope string_scope.

(** ** Characters and the [str] methods the module calls *)

Definition LF : ascii := "010"%char.
Definition CR : ascii := "013"%char.
Definition BS : ascii := "008"%char.

(** The one-character string ["\n"]. *)
Definition nl : string := String LF "".

(** [c in s] for a single character [c]. *)
Fixpoint str_contains (c : ascii) (s : string) : bool :=
  match s with
  | "" => false
  | String a t => Ascii.eqb a c || str_contains c t
  end.

(** [s.replace(c, "")] for a single character [c]. *)
Fixpoint str_remove (c : ascii) (s : string) : string :=
  match s with
  | "" => ""
  | String a t => if Ascii.eqb a c then str_remove c t else String a (str_remove c t)
  end.

(** [s.split(c)] for a single character separator: never the empty list. *)
Fixpoint str_split (c : ascii) (s : string) : list string :=
  match s with
  | "" => [""]
  | String a t =>
      if Ascii.eqb a c then "" :: str_split c t
      else match str_split c t with
           | h :: r => String a h :: r
           | [] => [String a ""]
           end
  end.

(** [s[n:]] for [n >= 0]: slicing clamps at the end of the string. *)
Fixpoint str_drop (n : nat) (s : string) : string :=
  match n, s with
  | O, _ => s
  | S _, "" => ""
  | S k, String _ t => str_drop k t
  end.

(** [s.rstrip("\n")] generalised to a character [c]. *)
Fixpoint str_rstrip (c : ascii) (s : string) : string :=
  match s with
  | "" => ""
  | String a t =>
      match str_rstrip c t with
      | "" => if Ascii.eqb a c then "" else String a ""
      | t' => String a t'
      end
  end.

(** [l[:-1]] and [l[1:]] on lists. *)
Definition all_but_last {A} (l : list A) : list A := removelast l.
Definition all_but_first {A} (l : list A) : list A := tl l.

(** [sep.join(l)] is [String.concat sep l]. *)
Definition str_join (sep : string) (l : list string) : string := String.concat sep l.

(** ** The sanitizer: static methods of [DeviceStream] *)

(** [_normalize_cmd]: [cmd.rstrip("\n") + "\n"]. *)
Definition _normalize_cmd (cmd : string) : string := str_rstrip LF cmd ++ nl.

(** [_strip_prompt]: split on the newline, drop the last line, join. *)
Definition _strip_prompt (output : string) : string :=
  let output_lines := str_split LF output in
  str_join nl (all_but_last output_lines).

(** [_strip_command]: with a backspace in the output, remove the backspaces
    and drop the first line; otherwise drop [len(cmd)] leading characters. *)
Definition _strip_command (cmd output : string) : string :=
  if str_contains BS output then
    let output := str_remove BS output in
    let output_lines := str_split LF output in
    str_join nl (all_but_first output_lines)
  else
    let command_length := String.length cmd in
    str_drop command_length output.

(** [_normalize_linefeeds]: [re.sub] of the fixed pattern
    [(\r\r\n|\r\n|\n\r)] by ["\n"].  The substitution scans left to right,
    tries the three alternatives in order at each position, replaces a match
    and resumes after it; a character that starts no match is copied. *)
Fixpoint _normalize_linefeeds (output : string) : string :=
  match output with
  | "" => ""
  | String a t =>
      match t with
      | "" => String a ""
      | String b u =>
          if Ascii.eqb a CR && Ascii.eqb b CR then
            match u with
            | String c v =>
                if Ascii.eqb c LF then String LF (_normalize_linefeeds v)
                else String a (_normalize_linefeeds t)
            | "" => String a (_normalize_linefeeds t)
            end
          else if Ascii.eqb a CR && Ascii.eqb b LF then String LF (_normalize_linefeeds u)
          else if Ascii.eqb a LF && Ascii.eqb b CR then String LF (_normalize_linefeeds u)
          else String a (_normalize_linefeeds t)
      end
  end.

(** Whether a text holds one of the line endings [_normalize_linefeeds]
    rewrites.  The three-character one ends in carriage-return/line-feed, so
    the two pairs decide. *)
Fixpoint has_line_ending_variant (s : string) : bool :=
  match s with
  | "" => false
  | String a t =>
      match t with
      | "" => false
      | String b _ =>
          (Ascii.eqb a CR && Ascii.eqb b LF) || (Ascii.eqb a LF && Ascii.eqb b CR)
          || has_line_ending_variant t
      end
  end.

(** ** The pattern compiler: [re.escape] *)

Definition HT : ascii := "009"%char.
Definition VT : ascii := "011"%char.
Definition FF : ascii := "012"%char.

(** The characters [re.escape] puts a backslash before (CPython's
    [_special_chars_map]): [()[]{}?*+-|^$\.&~#], the space and the five
    control characters tab, line feed, carriage return, vertical tab and
    form feed. *)
Definition re_special_chars : list ascii :=
  list_ascii_of_string "()[]{}?*+-|^$\.&~# " ++ [HT; LF; CR; VT; FF].

Definition re_special (c : ascii) : bool := existsb (Ascii.eqb c) re_special_chars.

(** [re.escape]. *)
Fixpoint re_escape (s : string) : string :=
  match s with
  | "" => ""
  | String c t =>
      if re_special c then String "\" (String c (re_escape t))
      else String c (re_escape t)
  end.

(** ** A model of [re.search] on the patterns the module builds

    The module itself builds two shapes of pattern: the alternation of
    escaped literals above and its two-line anchored variant
    [(p).*$.*(p)$].  The model covers the syntax they use: literal
    characters, a backslash before a character that is no ASCII letter or
    digit, [.], [$], [*], [|] and groups, under the flags [re.MULTILINE] and
    [re.DOTALL].  On any other syntax or flag it answers [None]. *)

Inductive regex : Type :=
| Eps
| Chr (c : ascii)
| Dot
| Eol
| Grp (r : regex)
| Seq (r1 r2 : regex)
| Alt (r1 r2 : regex)
| Star (r : regex).

Inductive token : Type :=
| TChr (c : ascii) | TDot | TEol | TStar | TBar | TOpen | TClose.

Definition is_ascii_alnum (c : ascii) : bool :=
  let n := nat_of_ascii c in
  (((48 <=? n) && (n <=? 57)) || ((65 <=? n) && (n <=? 90)) || ((97 <=? n) && (n <=? 122)))%nat.

(** The metacharacters the model does not interpret: [^ + ? { } [ ]]. *)
Definition re_unmodelled (c : ascii) : bool :=
  existsb (Ascii.eqb c) (list_ascii_of_string "^+?{}[]").

Fixpoint tokenize (p : string) : option (list token) :=
  match p with
  | "" => Some []
  | String c t =>
      if Ascii.eqb c "\" then
        match t with
        | "" => None
        | String d u =>
            if is_ascii_alnum d then None
            else option_map (cons (TChr d)) (tokenize u)
        end
      else if re_unmodelled c then None
      else
        let tok := if Ascii.eqb c "." then TDot
                   else if Ascii.eqb c "$" then TEol
                   else if Ascii.eqb c "*" then TStar
                   else if Ascii.eqb c "|" then TBar
                   else if Ascii.eqb c "(" then TOpen
                   else if Ascii.eqb c ")" then TClose
                   else TChr c in
        option_map (cons tok) (tokenize t)
  end.

(** A parsing frame: the alternatives already closed and the atoms of the
    alternative being read, both latest first. *)
Definition frame : Type := (list regex * list regex)%type.

Definition mk_seq (atoms : list regex) : regex :=
  fold_left (fun acc a => Seq a acc) atoms Eps.

Definition mk_alt (alts : list regex) (last : regex) : regex :=
  fold_left (fun acc a => Alt a acc) alts last.

Definition close_frame (fr : frame) : regex := mk_alt (fst fr) (mk_seq (snd fr)).

(** What [*] may follow: a character, a dot or a group; after [$], after
    another [*] or at the start of an alternative [re] reports an error. *)
Definition repeatable (r : regex) : bool :=
  match r with
  | Chr _ | Dot | Grp _ => true
  | _ => false
  end.

Fixpoint parse_tokens (ts : list token) (fr : frame) (stack : list frame) : option regex :=
  match ts with
  | [] => match stack with
          | [] => Some (close_frame fr)
          | _ :: _ => None
          end
  | TChr c :: ts' => parse_tokens ts' (fst fr, Chr c :: snd fr) stack
  | TDot :: ts' => parse_tokens ts' (fst fr, Dot :: snd fr) stack
  | TEol :: ts' => parse_tokens ts' (fst fr, Eol :: snd fr) stack
  | TStar :: ts' =>
      match snd fr with
      | a :: cur => if repeatable a then parse_tokens ts' (fst fr, Star a :: cur) stack else None
      | [] => None
      end
  | TBar :: ts' => parse_tokens ts' (mk_seq (snd fr) :: fst fr, []) stack
  | TOpen :: ts' => parse_tokens ts' ([], []) (fr :: stack)
  | TClose :: ts' =>
      match stack with
      | up :: stack' => parse_tokens ts' (fst up, Grp (close_frame fr) :: snd up) stack'
      | [] => None
      end
  end.

Definition re_parse (p : string) : option regex :=
  match tokenize p with
  | Some ts => parse_tokens ts ([], []) []
  | None => None
  end.

(** The flags: [re.MULTILINE] is 8 and [re.DOTALL] is 16. *)
Definition re_MULTILINE : Z := 8.
Definition re_DOTALL : Z := 16.
Definition flags_modelled (fl : Z) : bool :=
  Z.eqb (Z.land fl (Z.lnot (Z.lor re_MULTILINE re_DOTALL))) 0 && Z.leb 0 fl.

(** [$]: at the end of the text or before a final newline; with
    [re.MULTILINE] before any newline. *)
Definition at_eol (multiline : bool) (s : string) : bool :=
  match s with
  | "" => true
  | String c t => Ascii.eqb c LF && (multiline || String.eqb t "")
  end.

(** The remainders [r*] can leave: [step] applied any number of times; an
    iteration that consumes nothing adds no remainder, so the length of the
    text bounds the number of useful iterations. *)
Fixpoint iter_star (step : string -> list string) (n : nat) (s : string) : list string :=
  s :: match n with
       | O => []
       | S k => flat_map (iter_star step k)
                  (filter (fun t => Nat.ltb (String.length t) (String.length s)) (step s))
       end.

(** [ends r s]: what can remain of [s] after [r] matched at its start. *)
Fixpoint ends (multiline dotall : bool) (r : regex) (s : string) : list string :=
  match r with
  | Eps => [s]
  | Chr c => match s with
             | String a t => if Ascii.eqb a c then [t] else []
             | "" => []
             end
  | Dot => match s with
           | String a t => if dotall || negb (Ascii.eqb a LF) then [t] else []
           | "" => []
           end
  | Eol => if at_eol multiline s then [s] else []
  | Grp r1 => ends multiline dotall r1 s
  | Seq r1 r2 => flat_map (ends multiline dotall r2) (ends multiline dotall r1 s)
  | Alt r1 r2 => ends multiline dotall r1 s ++ ends multiline dotall r2 s
  | Star r1 => iter_star (ends multiline dotall r1) (String.length s) s
  end%list.

Definition matches_at (multiline dotall : bool) (r : regex) (s : string) : bool :=
  match ends multiline dotall r s with
  | [] => false
  | _ :: _ => true
  end.

(** A match may start at any position of the text, the end included. *)
Fixpoint search_regex (multiline dotall : bool) (r : regex) (s : string) : bool :=
  matches_at multiline dotall r s
  || match s with
     | "" => false
     | String _ t => search_regex multiline dotall r t
     end.

(** [re.search(pattern, text, flags)] as a truth value; [None] where [re]
    raises [re.error] or where the model does not reach. *)
Definition re_search_model (pattern text : string) (flags : Z) : option bool :=
  if flags_modelled flags then
    match re_parse pattern with
    | Some r => Some (search_regex (Z.testbit flags 3) (Z.testbit flags 4) r text)
    | None => None
    end
  else None.

(** [text.startswith(d)] and [d in text] for strings. *)
Fixpoint str_prefix (d text : string) : bool :=
  match d with
  | "" => true
  | String a d' =>
      match text with
      | "" => false
      | String b t => Ascii.eqb b a && str_prefix d' t
      end
  end.

Fixpoint str_occurs (d text : string) : bool :=
  str_prefix d text
  || match text with
     | "" => false
     | String _ t => str_occurs d t
     end.

(** ** Python values, exceptions and results *)

(** The values an untyped argument may hold. *)
#[local] Set Warnings "-register-all".
Inductive pyval : Type :=
| PyNone
| PyBool (b : bool)
| PyInt (n : Z)
| PyStr (s : string)
| PyList (l : list pyval)
| PyTuple (l : list pyval).

(** Truth value testing, as [not x] and [if x] apply it. *)
Definition truthy (v : pyval) : bool :=
  match v with
  | PyNone => false
  | PyBool b => b
  | PyInt n => negb (Z.eqb n 0)
  | PyStr s => negb (String.eqb s "")
  | PyList l => match l with [] => false | _ :: _ => true end
  | PyTuple l => match l with [] => false | _ :: _ => true end
  end.

Definition isinstance_str (v : pyval) : bool :=
  match v with PyStr _ => true | _ => false end.

Definition isinstance_list (v : pyval) : bool :=
  match v with PyList _ => true | _ => false end.

Inductive exn : Type := ValueError | TypeError | AttributeError | ReError.

(** A call returns, raises, or never returns because a [read] it awaits
    never completes. *)
Inductive outcome (A : Type) : Type :=
| Ok (a : A)
| Raise (e : exn)
| Blocked.
Arguments Ok {A} a.
Arguments Raise {A} e.
Arguments Blocked {A}.

(** What a [for] loop iterates over. *)
Definition py_iter (v : pyval) : outcome (list pyval) :=
  match v with
  | PyList l | PyTuple l => Ok l
  | PyStr s => Ok (map (fun c => PyStr (String c "")) (list_ascii_of_string s))
  | PyNone | PyBool _ | PyInt _ => Raise TypeError
  end.

(** ** The transport

    The [IOConnection] is an external collaborator.  One run of it is the
    sequence of chunks its [read] will return, in order, and the record of
    the calls made on it; once the chunks are used up a [read] never
    returns.  A transport that fails is outside the model. *)
Inductive io_event : Type :=
| EvConnect
| EvDisconnect
| EvSend (data : string)
| EvRead (chunk : string).

Record IOConnection : Type := mkIO {
  incoming : list string;
  trace : list io_event
}.

Definition io_log (ev : io_event) (io : IOConnection) : IOConnection :=
  mkIO (incoming io) (trace io ++ [ev]).

(** ** The device stream *)

Record DeviceStream : Type := mkDeviceStream {
  _io_connection : IOConnection;
  _set_prompt_func : string -> string;
  _prompt_pattern : string;
  _nopage_cmd : option string
}.

Definition with_io (io : IOConnection) (self : DeviceStream) : DeviceStream :=
  mkDeviceStream io (_set_prompt_func self) (_prompt_pattern self) (_nopage_cmd self).

Definition with_pattern (p : string) (self : DeviceStream) : DeviceStream :=
  mkDeviceStream (_io_connection self) (_set_prompt_func self) p (_nopage_cmd self).

(** [__init__]: both collaborators are required; the delimiter list and
    the pagination command are stored as they come. *)
Definition __init__ (io_connection : option IOConnection) (delimeter_list : list string)
    (set_prompt_func : option (string -> string)) (nopage_cmd : option string)
  : outcome DeviceStream :=
  match io_connection with
  | None => Raise ValueError
  | Some io =>
      match set_prompt_func with
      | None => Raise ValueError
      | Some f =>
          let escaped_list := map re_escape delimeter_list in
          Ok (mkDeviceStream io f (str_join "|" escaped_list) nopage_cmd)
      end
  end.

(** Methods run on the object and may change it: a method is a function
    from the object to a result and the object afterwards.  The object is
    kept when a method raises or blocks, with what was done before. *)
Definition M (A : Type) : Type := DeviceStream -> outcome A * DeviceStream.

Definition ret {A} (a : A) : M A := fun self => (Ok a, self).
Definition raise {A} (e : exn) : M A := fun self => (Raise e, self).
Definition bind {A B} (m : M A) (k : A -> M B) : M B :=
  fun self =>
    match m self with
    | (Ok a, self') => k a self'
    | (Raise e, self') => (Raise e, self')
    | (Blocked, self') => (Blocked, self')
    end.
Definition get_pattern : M string := fun self => (Ok (_prompt_pattern self), self).
Definition set_pattern (p : string) : M unit := fun self => (Ok tt, with_pattern p self).

Notation "x <- m ;; k" := (bind m (fun x => k))
  (at level 61, m at next level, right associativity).
Notation "m ;;; k" := (bind m (fun _ => k))
  (at level 61, right associativity).

Section Stream.

(** [re.search] is Python's: the stream is defined over any matcher, which
    answers [None] where [re.search] raises [re.error]. *)
Variable re_search : string -> string -> Z -> option bool.

(** [re.search(pattern, output, flags=re_flags)] on an untyped pattern: a
    pattern that is no string is a [TypeError].  Where the matcher refuses
    a string pattern or the flags, the call raises; [ReError] stands for
    whatever [re.search] raises there, and nothing below depends on which
    exception it is. *)
Definition py_re_search (pattern : pyval) (output : string) (re_flags : Z) : outcome bool :=
  match pattern with
  | PyStr p => match re_search p output re_flags with
               | Some b => Ok b
               | None => Raise ReError
               end
  | _ => Raise TypeError
  end.

(** The inner loop of [_read_until]: the patterns are tried in list order
    and the first that matches ends the search. *)
Fixpoint search_any (pattern_list : list pyval) (output : string) (re_flags : Z) : outcome bool :=
  match pattern_list with
  | [] => Ok false
  | pattern :: rest =>
      match py_re_search pattern output re_flags with
      | Ok true => Ok true
      | Ok false => search_any rest output re_flags
      | Raise e => Raise e
      | Blocked => Blocked
      end
  end.

(** The [while True] loop of [_read_until], by recursion on the chunks the
    transport still holds: each turn reads one chunk, appends it and tests
    the whole buffer. *)
Fixpoint read_loop (pattern_list : list pyval) (re_flags : Z) (output : string)
    (chunks : list string) (tr : list io_event)
  : outcome string * IOConnection :=
  match chunks with
  | [] => (Blocked, mkIO [] tr)
  | buf :: rest =>
      let tr := (tr ++ [EvRead buf])%list in
      let output := output ++ buf in
      match search_any pattern_list output re_flags with
      | Ok true => (Ok (_normalize_linefeeds output), mkIO rest tr)
      | Ok false => read_loop pattern_list re_flags output rest tr
      | Raise e => (Raise e, mkIO rest tr)
      | Blocked => (Blocked, mkIO rest tr)
      end
  end.

(** [_read_until]; its [pattern_list is None] test cannot fire, the only
    caller passes a list. *)
Definition _read_until (pattern_list : list pyval) (re_flags : Z) : M string :=
  fun self =>
    let io := _io_connection self in
    let (r, io') := read_loop pattern_list re_flags "" (incoming io) (trace io) in
    (r, with_io io' self).

(** [_send]: normalize, then write.  [cmd.rstrip] exists on strings only. *)
Definition _send (cmd : pyval) : M unit :=
  match cmd with
  | PyStr c =>
      fun self => (Ok tt, with_io (io_log (EvSend (_normalize_cmd c)) (_io_connection self)) self)
  | _ => raise AttributeError
  end.

(** The [for cmd in cmd_list] loop of [send_commands]. *)
Fixpoint send_loop (pattern_list : list pyval) (re_flags : Z) (strip_command strip_prompt : bool)
    (cmds : list pyval) (output : string) : M string :=
  match cmds with
  | [] => ret output
  | cmd :: rest =>
      _send cmd ;;;
      buf <- _read_until pattern_list re_flags ;;
      match cmd with
      | PyStr c =>
          let buf := if strip_command then _strip_command c buf else buf in
          let buf := if strip_prompt then _strip_prompt buf else buf in
          send_loop pattern_list re_flags strip_command strip_prompt rest (output ++ buf)
      | _ => raise AttributeError
      end
  end.

(** The effective terminator patterns of a call, or the [ValueError]. *)
Definition pattern_list_of (patterns : pyval) (prompt_pattern : string) : outcome (list pyval) :=
  if negb (truthy patterns) then Ok [PyStr prompt_pattern]
  else if isinstance_str patterns then Ok [patterns; PyStr prompt_pattern]
  else match patterns with
       | PyList l => Ok (l ++ [PyStr prompt_pattern])%list
       | _ => Raise ValueError
       end.

Definition lift {A} (o : outcome A) : M A := fun self => (o, self).

(** The body of [send_commands] once the pattern list is built: a single
    string is wrapped in a list, then the commands are run in order. *)
Definition dispatch (pattern_list : list pyval) (cmd_list : pyval)
    (strip_command strip_prompt : bool) (re_flags : Z) : M string :=
  let cmd_list := if isinstance_str cmd_list then PyList [cmd_list] else cmd_list in
  cmds <- lift (py_iter cmd_list) ;;
  send_loop pattern_list re_flags strip_command strip_prompt cmds "".

(** [send_commands]. *)
Definition send_commands (cmd_list : pyval) (strip_command strip_prompt : bool)
    (patterns : pyval) (re_flags : Z) : M string :=
  p <- get_pattern ;;
  pattern_list <- lift (pattern_list_of patterns p) ;;
  dispatch pattern_list cmd_list strip_command strip_prompt re_flags.

(** [_find_prompt]. *)
Definition _find_prompt : M string :=
  p <- get_pattern ;;
  set_pattern ("(" ++ p ++ ").*$.*(" ++ p ++ ")$") ;;;
  raw_prompt <- send_commands (PyStr nl) false false PyNone (Z.lor re_MULTILINE re_DOTALL) ;;
  f <- (fun self => (Ok (_set_prompt_func self), self)) ;;
  set_pattern (f raw_prompt) ;;;
  ret raw_prompt.

Definition pyval_of_opt (o : option string) : pyval :=
  match o with
  | Some s => PyStr s
  | None => PyNone
  end.

(** [_session_preparation]: [send_commands] with its default options. *)
Definition _session_preparation : M string :=
  c <- (fun self => (Ok (_nopage_cmd self), self)) ;;
  send_commands (pyval_of_opt c) true true PyNone 0.

Definition io_call (ev : io_event) : M unit :=
  fun self => (Ok tt, with_io (io_log ev (_io_connection self)) self).

(** [connect]. *)
Definition connect : M string :=
  io_call EvConnect ;;;
  buf <- _find_prompt ;;
  buf2 <- _session_preparation ;;
  ret (buf ++ buf2).

(** [disconnect]. *)
Definition disconnect : M unit := io_call EvDisconnect.

(** *** What a call leaves on the transport *)

(** The buffer [_read_until] holds after it read [chunks]. *)
Definition buffer_of (chunks : list string) : string := fold_left String.append chunks "".

(** The reads of one command end on the first chunk after which a
    terminator pattern is found in the buffer. *)
Definition first_match_at_end (pattern_list : list pyval) (re_flags : Z)
    (chunks : list string) : Prop :=
  chunks <> []
  /\ search_any pattern_list (buffer_of chunks) re_flags = Ok true
  /\ forall n, 0 < n < List.length chunks ->
               search_any pattern_list (buffer_of (firstn n chunks)) re_flags = Ok false.

(** A series of calls to [send_commands], each with its own arguments;
    the caller may go on after a call that raised. *)
Record call : Type := mkCall {
  call_cmd_list : pyval;
  call_strip_command : bool;
  call_strip_prompt : bool;
  call_patterns : pyval;
  call_re_flags : Z
}.

Definition after_calls (calls : list call) (self : DeviceStream) : DeviceStream :=
  fold_left (fun s c => snd (send_commands (call_cmd_list c) (call_strip_command c)
                               (call_strip_prompt c) (call_patterns c) (call_re_flags c) s))
            calls self.

End Stream.

(** The events of one command: its write, then its reads. *)
Definition exchange_events (cmd : string) (chunks : list string) : list io_event :=
  EvSend (_normalize_cmd cmd) :: map EvRead chunks.

(** The events of a run of commands, one exchange after the other. *)
Fixpoint session_events (cmds : list string) (exchanges : list (list string)) : list io_event :=
  match cmds, exchanges with
  | c :: cs, x :: xs => (exchange_events c x ++ session_events cs xs)%list
  | _, _ => []
  end.

(** The data of the writes of a trace, in order. *)
Fixpoint sends_of (evs : list io_event) : list string :=
  match evs with
  | [] => []
  | EvSend d :: rest => d :: sends_of rest
  | _ :: rest => sends_of rest
  end.

(** The two-line anchored variant [_find_prompt] builds from a pattern. *)
Definition two_line_pattern (p : string) : string := "(" ++ p ++ ").*$.*(" ++ p ++ ")$".

(** Which [patterns] values [send_commands] refuses. *)
Definition patterns_rejected (patterns : pyval) : bool :=
  truthy patterns && negb (isinstance_str patterns) && negb (isinstance_list patterns).

(** A value that is present and is neither a string nor a list of strings. *)
Definition present_not_str_nor_str_list (patterns : pyval) : bool :=
  match patterns with
  | PyNone => false
  | PyStr _ => false
  | PyList l => negb (forallb isinstance_str l)
  | _ => true
  end.

(** ** Sample sessions *)

(** A prompt setter: the escaped last line of the exchange. *)
Definition sample_set_prompt (raw : string) : string :=
  re_escape (last (str_split LF raw) "").

(** A device whose prompt is [host#]: it answers the probe, then echoes
    two commands with their output. *)
Definition sample_io : IOConnection :=
  mkIO ["host#" ++ nl; "host#";
        "show ip" ++ nl ++ "10.0.0.1" ++ String CR nl; "host#";
        "show run" ++ nl ++ "hostname host" ++ nl ++ "host#"] [].

Definition sample_stream : DeviceStream :=
  mkDeviceStream sample_io sample_set_prompt "\#" None.

(** A stream with a pagination command, on a device that answers the
    probe and then echoes that command. *)
Definition sample_paged_stream : DeviceStream :=
  mkDeviceStream
    (mkIO ["host#" ++ nl; "host#"; "terminal length 0" ++ nl ++ "host#"; "late"] [])
    sample_set_prompt "\#" (Some "terminal length 0").

(** A stream on a device that shows a login banner and no prompt. *)
Definition sample_silent_stream : DeviceStream :=
  mkDeviceStream (mkIO ["login: "; "password: "] []) sample_set_prompt "\#" None.

(** The same stream after prompt detection. *)
Definition sample_ready : DeviceStream :=
  snd (_find_prompt re_search_model sample_stream).


(** ** Auxiliary notions of the statements *)

(** The tokens of a literal and of an alternation of literals. *)
Definition lit_tokens (d : string) : list token := map TChr (list_ascii_of_string d).

Fixpoint alt_tokens (ds : list string) : list token :=
  match ds with
  | [] => []
  | d :: rest =>
      match rest with
      | [] => lit_tokens d
      | _ :: _ => (lit_tokens d ++ TBar :: alt_tokens rest)%list
      end
  end.

(** The expression of a literal: its characters in sequence. *)
Definition lit_regex (d : string) : regex :=
  fold_right (fun c acc => Seq (Chr c) acc) Eps (list_ascii_of_string d).

(** Whether a text ends with a character, and a character repeated. *)
Fixpoint str_ends_with (c : ascii) (s : string) : bool :=
  match s with
  | "" => false
  | String a t =>
      match t with
      | "" => Ascii.eqb a c
      | String _ _ => str_ends_with c t
      end
  end.

Fixpoint str_repeat (c : ascii) (k : nat) : string :=
  match k with
  | O => ""
  | S k' => String c (str_repeat c k')
  end.

(** The two sanitizer steps of the loop of [send_commands], as its flags
    select them. *)
Definition sanitize (strip_command strip_prompt : bool) (cmd buf : string) : string :=
  let buf := if strip_command then _strip_command cmd buf else buf in
  if strip_prompt then _strip_prompt buf else buf.

(** What a run of commands returns when each exchange ends on a match. *)
Fixpoint session_output (strip_command strip_prompt : bool)
    (cmds : list string) (exchanges : list (list string)) : string :=
  match cmds, exchanges with
  | c :: cs, x :: xs =>
      sanitize strip_command strip_prompt c (_normalize_linefeeds (buffer_of x))
      ++ session_output strip_command strip_prompt cs xs
  | _, _ => ""
  end.

(** The parsing frame after the tokens of an alternation of literals:
    the literals before the last are closed alternatives, the characters of
    the last are the atoms being read. *)
Fixpoint frame_after (alts : list regex) (ds : list string) : frame :=
  match ds with
  | [] => (alts, [])
  | d :: rest =>
      match rest with
      | [] => (alts, rev (map Chr (list_ascii_of_string d)))
      | _ :: _ => frame_after (lit_regex d :: alts) rest
      end
  end.

(** * Properties *)

(** ** The [str] helpers *)

Lemma str_split_no_sep (c : ascii) (s : string) :
  str_contains c s = false -> str_split c s = [s].
Proof.
  induction s as [|a t IH]; simpl; [reflexivity|].
  intros H. apply orb_false_elim in H as [Ha Ht].
  rewrite Ha, (IH Ht). reflexivity.
Qed.

Lemma str_drop_app (s rest : string) : str_drop (String.length s) (s ++ rest) = rest.
Proof. induction s as [|a t IH]; simpl; [destruct rest; reflexivity | exact IH]. Qed.

Lemma str_append_nil_r (s : string) : s ++ "" = s.
Proof. induction s as [|a t IH]; simpl; [reflexivity | now rewrite IH]. Qed.

Lemma str_append_assoc (a b c : string) : (a ++ b) ++ c = a ++ (b ++ c).
Proof. induction a as [|x t IH]; simpl; [reflexivity | now rewrite IH]. Qed.

(** ** The sanitizer *)

Example normalize_linefeeds_sample :
  _normalize_linefeeds
    (String "a" (String CR (String LF (String "b" (String CR (String CR (String LF "c")))))))
  = String "a" (String LF (String "b" (String LF "c"))).
Proof. reflexivity. Qed.

Example strip_prompt_sample :
  _strip_prompt ("show" ++ nl ++ "out" ++ nl ++ "Router>") = "show" ++ nl ++ "out".
Proof. reflexivity. Qed.

Example normalize_cmd_sample : _normalize_cmd ("show" ++ nl ++ nl) = "show" ++ nl.
Proof. reflexivity. Qed.

(** C10. An output that holds no newline is one line, the prompt line:
    [_strip_prompt] returns the empty string. *)
Theorem strip_prompt_single_line (output : string) :
  str_contains LF output = false -> _strip_prompt output = "".
Proof.
  intros H. unfold _strip_prompt. rewrite (str_split_no_sep _ _ H). reflexivity.
Qed.

Lemma strip_prompt_single_line_witness :
  str_contains LF "Router>" = false /\ _strip_prompt "Router>" = "".
Proof. split; [reflexivity | apply strip_prompt_single_line; reflexivity]. Defined.

Lemma strip_command_no_backspace (cmd output : string) :
  str_contains BS output = false ->
  _strip_command cmd output = str_drop (String.length cmd) output.
Proof. intros H. unfold _strip_command. now rewrite H. Qed.

(** For a command written with exactly one trailing newline, which is
    sent as it is, an output without backspace that begins with the command
    loses exactly the characters of the command, and what follows them is
    returned unchanged. *)
Theorem strip_command_removes_echo (cmd rest : string) :
  _normalize_cmd cmd = cmd ->
  str_contains BS (_normalize_cmd cmd ++ rest) = false ->
  _strip_command cmd (_normalize_cmd cmd ++ rest) = rest
  /\ _strip_command cmd (_normalize_cmd cmd ++ rest)
     = str_drop (String.length (_normalize_cmd cmd)) (_normalize_cmd cmd ++ rest).
Proof.
  intros Hc Hb. rewrite (strip_command_no_backspace _ _ Hb), Hc.
  split; [apply str_drop_app | reflexivity].
Qed.

Lemma strip_command_removes_echo_witness :
  _normalize_cmd ("show version" ++ nl) = "show version" ++ nl
  /\ _strip_command ("show version" ++ nl)
       (_normalize_cmd ("show version" ++ nl) ++ "12.4" ++ nl ++ "Router>")
     = "12.4" ++ nl ++ "Router>".
Proof.
  split; [reflexivity|].
  apply (strip_command_removes_echo ("show version" ++ nl) ("12.4" ++ nl ++ "Router>"));
    reflexivity.
Defined.

(** ** Line endings *)



Lemma normalize_linefeeds_eq (a b : ascii) (u : string) :
  _normalize_linefeeds (String a (String b u)) =
  if Ascii.eqb a CR && Ascii.eqb b CR then
    match u with
    | String c v =>
        if Ascii.eqb c LF then String LF (_normalize_linefeeds v)
        else String a (_normalize_linefeeds (String b u))
    | "" => String a (_normalize_linefeeds (String b u))
    end
  else if Ascii.eqb a CR && Ascii.eqb b LF then String LF (_normalize_linefeeds u)
  else if Ascii.eqb a LF && Ascii.eqb b CR then String LF (_normalize_linefeeds u)
  else String a (_normalize_linefeeds (String b u)).
Proof. reflexivity. Qed.

Lemma has_line_ending_variant_eq (a b : ascii) (u : string) :
  has_line_ending_variant (String a (String b u)) =
  (Ascii.eqb a CR && Ascii.eqb b LF) || (Ascii.eqb a LF && Ascii.eqb b CR)
  || has_line_ending_variant (String b u).
Proof. reflexivity. Qed.


Lemma normalize_linefeeds_length_aux (n : nat) : forall s,
  String.length s <= n ->
  String.length (_normalize_linefeeds s) <= String.length s
  /\ (has_line_ending_variant s = true ->
      String.length (_normalize_linefeeds s) < String.length s).
Proof.
  induction n as [|n IH]; intros s Hn.
  - destruct s; simpl in Hn; [|lia]. split; [reflexivity | discriminate].
  - destruct s as [|a t]; [split; [reflexivity | discriminate]|].
    destruct t as [|b u]; [split; [reflexivity | discriminate]|].
    cbn [String.length] in Hn.
    assert (Ht : String.length (String b u) <= n) by (cbn [String.length]; lia).
    assert (Hu : String.length u <= n) by lia.
    pose proof (IH _ Ht) as [Lt Vt]. pose proof (IH _ Hu) as [Lu _].
    rewrite has_line_ending_variant_eq, normalize_linefeeds_eq.
    destruct (Ascii.eqb a CR && Ascii.eqb b LF) eqn:H1.
    { destruct (Ascii.eqb a CR && Ascii.eqb b CR) eqn:Hcc.
      - apply andb_prop in Hcc as [_ Hb]. apply andb_prop in H1 as [_ Hb'].
        apply Ascii.eqb_eq in Hb, Hb'. subst b. discriminate.
      - cbn [String.length] in *. split; intros; lia. }
    destruct (Ascii.eqb a LF && Ascii.eqb b CR) eqn:H2.
    { destruct (Ascii.eqb a CR && Ascii.eqb b CR) eqn:Hcc.
      - apply andb_prop in Hcc as [Ha _]. apply andb_prop in H2 as [Ha' _].
        apply Ascii.eqb_eq in Ha, Ha'. subst a. discriminate.
      - cbn [String.length] in *. split; intros; lia. }
    cbn [orb].
    assert (Hkeep : String.length (String a (_normalize_linefeeds (String b u)))
                    <= String.length (String a (String b u))
                    /\ (has_line_ending_variant (String b u) = true ->
                        String.length (String a (_normalize_linefeeds (String b u)))
                        < String.length (String a (String b u)))).
    { cbn [String.length] in *. split; [lia|]. intros H. specialize (Vt H). lia. }
    destruct (Ascii.eqb a CR && Ascii.eqb b CR) eqn:Hcc; [|exact Hkeep].
    destruct u as [|c v]; [exact Hkeep|].
    destruct (Ascii.eqb c LF) eqn:Hc; [|exact Hkeep].
    assert (Hv : String.length v <= n) by (cbn [String.length] in Hu; lia).
    pose proof (IH _ Hv) as [Lv _].
    cbn [String.length] in *. split; intros; lia.
Qed.






(** ** The pattern compiler *)

Lemma str_prefix_spec (d text : string) :
  str_prefix d text = true <-> exists rest, text = d ++ rest.
Proof.
  revert text. induction d as [|a d IH]; intros text; simpl.
  - split; [intros _; now exists text | reflexivity].
  - destruct text as [|b t].
    + split; [discriminate | intros [rest H]; discriminate].
    + rewrite andb_true_iff, Ascii.eqb_eq, IH. split.
      * intros [-> [rest ->]]. now exists rest.
      * intros [rest H]. injection H as -> ->. split; [reflexivity | now exists rest].
Qed.

Lemma str_occurs_spec (d text : string) :
  str_occurs d text = true <-> exists before rest, text = before ++ d ++ rest.
Proof.
  induction text as [|b t IH].
  - simpl. rewrite orb_false_r, str_prefix_spec. split.
    + intros [rest H]. now exists "", rest.
    + intros [before [rest H]]. destruct before; [now exists rest | discriminate].
  - cbn [str_occurs]. rewrite orb_true_iff, str_prefix_spec, IH. split.
    + intros [[rest H] | [before [rest H]]].
      * now exists "", rest.
      * exists (String b before), rest. simpl. now rewrite H.
    + intros [before [rest H]]. destruct before as [|x before].
      * left. now exists rest.
      * right. simpl in H. injection H as _ H. now exists before, rest.
Qed.

(** What [re.escape] leaves alone is an ordinary character of a pattern. *)
Lemma plain_char_tokenized (c : ascii) (t : string) :
  re_special c = false ->
  tokenize (String c t) = option_map (cons (TChr c)) (tokenize t).
Proof.
  destruct c as [[] [] [] [] [] [] [] []]; intros H; try discriminate H; reflexivity.
Qed.

(** What it escapes is no letter and no digit: the escape is the literal. *)
Lemma escaped_char_tokenized (c : ascii) (t : string) :
  re_special c = true ->
  tokenize (String "\" (String c t)) = option_map (cons (TChr c)) (tokenize t).
Proof.
  destruct c as [[] [] [] [] [] [] [] []]; intros H; try discriminate H; reflexivity.
Qed.

Lemma tokenize_escape (d rest : string) :
  tokenize (re_escape d ++ rest) = option_map (app (lit_tokens d)) (tokenize rest).
Proof.
  induction d as [|c d IH].
  - simpl. destruct (tokenize rest); reflexivity.
  - cbn [re_escape]. destruct (re_special c) eqn:Hc.
    + change (String "\" (String c (re_escape d)) ++ rest)
        with (String "\" (String c (re_escape d ++ rest))).
      rewrite (escaped_char_tokenized _ _ Hc), IH.
      destruct (tokenize rest); reflexivity.
    + change (String c (re_escape d) ++ rest) with (String c (re_escape d ++ rest)).
      rewrite (plain_char_tokenized _ _ Hc), IH.
      destruct (tokenize rest); reflexivity.
Qed.

Lemma tokenize_alternation (ds : list string) :
  tokenize (str_join "|" (map re_escape ds)) = Some (alt_tokens ds).
Proof.
  induction ds as [|d rest IH]; [reflexivity|].
  destruct rest as [|d' rest].
  - cbn [map str_join String.concat alt_tokens].
    rewrite <- (str_append_nil_r (re_escape d)), tokenize_escape.
    simpl. now rewrite app_nil_r.
  - change (str_join "|" (map re_escape (d :: d' :: rest)))
      with (re_escape d ++ String "|" (str_join "|" (map re_escape (d' :: rest)))).
    rewrite tokenize_escape.
    change (tokenize (String "|" (str_join "|" (map re_escape (d' :: rest)))))
      with (option_map (cons TBar) (tokenize (str_join "|" (map re_escape (d' :: rest))))).
    rewrite IH. reflexivity.
Qed.

Lemma existsb_orb {A} (f g : A -> bool) (l : list A) :
  existsb (fun d => f d || g d) l = existsb f l || existsb g l.
Proof.
  induction l as [|d l IH]; [reflexivity|]. cbn [existsb]. rewrite IH.
  destruct (f d); destruct (g d); destruct (existsb f l); reflexivity.
Qed.

Lemma existsb_pointwise {A} (f g : A -> bool) (l : list A) :
  (forall x, f x = g x) -> existsb f l = existsb g l.
Proof.
  intros H. induction l as [|d l IH]; [reflexivity|]. cbn [existsb]. now rewrite H, IH.
Qed.

Lemma parse_literal (d : string) : forall ts alts cur stack,
  parse_tokens (lit_tokens d ++ ts) (alts, cur) stack
  = parse_tokens ts (alts, (rev (map Chr (list_ascii_of_string d)) ++ cur)%list) stack.
Proof.
  unfold lit_tokens. induction d as [|c d IH]; intros ts alts cur stack; [reflexivity|].
  cbn [list_ascii_of_string map app parse_tokens fst snd rev].
  rewrite IH, <- app_assoc. reflexivity.
Qed.

Lemma mk_seq_literal (d : string) :
  mk_seq (rev (map Chr (list_ascii_of_string d))) = lit_regex d.
Proof.
  unfold mk_seq, lit_regex.
  rewrite <- (fold_left_rev_right (fun a acc => Seq a acc)), rev_involutive.
  induction (list_ascii_of_string d) as [|c l IH]; simpl; [reflexivity | now rewrite IH].
Qed.

Section Matching.

Variables multiline dotall : bool.

Lemma ends_literal (d : string) : forall s,
  ends multiline dotall (lit_regex d) s
  = if str_prefix d s then [str_drop (String.length d) s] else [].
Proof.
  unfold lit_regex. induction d as [|c d IH]; intros s; [reflexivity|].
  cbn [list_ascii_of_string fold_right ends str_prefix String.length].
  destruct s as [|a t]; [reflexivity|].
  destruct (Ascii.eqb a c); [|reflexivity].
  cbn [flat_map andb str_drop]. rewrite app_nil_r. apply IH.
Qed.

Lemma matches_at_literal (d s : string) :
  matches_at multiline dotall (lit_regex d) s = str_prefix d s.
Proof. unfold matches_at. rewrite ends_literal. now destruct (str_prefix d s). Qed.

Lemma matches_at_alt (r1 r2 : regex) (s : string) :
  matches_at multiline dotall (Alt r1 r2) s
  = matches_at multiline dotall r1 s || matches_at multiline dotall r2 s.
Proof.
  unfold matches_at. cbn [ends].
  destruct (ends multiline dotall r1 s); [|reflexivity].
  now destruct (ends multiline dotall r2 s).
Qed.

Lemma matches_at_mk_alt (alts : list regex) : forall last s,
  matches_at multiline dotall (mk_alt alts last) s
  = existsb (fun r => matches_at multiline dotall r s) alts
    || matches_at multiline dotall last s.
Proof.
  unfold mk_alt. induction alts as [|a alts IH]; intros last s; [reflexivity|].
  cbn [fold_left existsb]. rewrite IH, matches_at_alt.
  destruct (matches_at multiline dotall a s);
    destruct (existsb (fun r => matches_at multiline dotall r s) alts); reflexivity.
Qed.

(** An alternation of escaped literals parses, and it matches at the head
    of a text exactly when one of the literals is a prefix of the text. *)
Lemma parse_alternation (ds : list string) : forall alts,
  ds <> [] ->
  exists r,
    parse_tokens (alt_tokens ds) (alts, []) [] = Some r
    /\ forall s, matches_at multiline dotall r s
                 = existsb (fun a => matches_at multiline dotall a s) alts
                   || existsb (fun d => str_prefix d s) ds.
Proof.
  induction ds as [|d rest IH]; intros alts Hne; [contradiction|].
  destruct rest as [|d' rest].
  - exists (mk_alt alts (lit_regex d)). split.
    + cbn [alt_tokens]. rewrite <- (app_nil_r (lit_tokens d)), parse_literal.
      rewrite app_nil_r. cbn [parse_tokens]. unfold close_frame. cbn [fst snd].
      now rewrite mk_seq_literal.
    + intros s. rewrite matches_at_mk_alt, matches_at_literal.
      cbn [existsb]. now rewrite orb_false_r.
  - destruct (IH (lit_regex d :: alts) ltac:(discriminate)) as [r [Hr Hm]].
    exists r. split.
    + change (alt_tokens (d :: d' :: rest))
        with (lit_tokens d ++ TBar :: alt_tokens (d' :: rest))%list.
      rewrite parse_literal, app_nil_r. cbn [parse_tokens fst snd].
      now rewrite mk_seq_literal.
    + intros s. rewrite Hm. cbn [existsb]. rewrite matches_at_literal.
      destruct (str_prefix d s);
        destruct (existsb (fun a => matches_at multiline dotall a s) alts);
        reflexivity.
Qed.

Lemma search_regex_prefixes (r : regex) (ds : list string) :
  (forall s, matches_at multiline dotall r s = existsb (fun d => str_prefix d s) ds) ->
  forall text, search_regex multiline dotall r text = existsb (fun d => str_occurs d text) ds.
Proof.
  intros Hm. induction text as [|a t IH].
  - cbn [search_regex str_occurs]. rewrite Hm, orb_false_r.
    apply existsb_pointwise. intros d. now rewrite orb_false_r.
  - cbn [search_regex str_occurs]. rewrite Hm, IH. symmetry. apply existsb_orb.
Qed.

End Matching.

Lemma bootstrap_pattern_search (ds : list string) (text : string) (fl : Z) :
  ds <> [] -> flags_modelled fl = true ->
  re_search_model (str_join "|" (map re_escape ds)) text fl
  = Some (existsb (fun d => str_occurs d text) ds).
Proof.
  intros Hne Hfl. unfold re_search_model, re_parse.
  rewrite Hfl, tokenize_alternation.
  destruct (parse_alternation (Z.testbit fl 3) (Z.testbit fl 4) ds [] Hne) as [r [Hr Hm]].
  rewrite Hr. f_equal. apply search_regex_prefixes. intros s. now rewrite Hm.
Qed.

(** C7. The pattern [__init__] compiles from a non-empty list of literal
    delimiters is found in a text exactly when one of the delimiters
    occurs in that text character for character: each delimiter is matched
    verbatim, whatever metacharacters it holds, and nothing else is. *)
Theorem bootstrap_pattern_matches_verbatim
    (io : IOConnection) (f : string -> string) (nopage : option string)
    (delimeter_list : list string) (self : DeviceStream) (text : string) (fl : Z) :
  delimeter_list <> [] -> flags_modelled fl = true ->
  __init__ (Some io) delimeter_list (Some f) nopage = Ok self ->
  exists found,
    re_search_model (_prompt_pattern self) text fl = Some found
    /\ (found = true <->
        exists d before rest, In d delimeter_list /\ text = before ++ d ++ rest).
Proof.
  intros Hne Hfl Hinit. injection Hinit as <-. cbn [_prompt_pattern].
  exists (existsb (fun d => str_occurs d text) delimeter_list).
  split; [now apply bootstrap_pattern_search|].
  rewrite existsb_exists. split.
  - intros [d [Hin Hocc]]. apply str_occurs_spec in Hocc as [before [rest H]].
    now exists d, before, rest.
  - intros [d [before [rest [Hin H]]]]. exists d. split; [exact Hin|].
    apply str_occurs_spec. now exists before, rest.
Qed.

Lemma bootstrap_pattern_matches_verbatim_witness :
  exists found,
    re_search_model "a\.b|\#" "axb host" 0 = Some found
    /\ (found = true <->
        exists d before rest, In d ["a.b"; "#"] /\ "axb host" = before ++ d ++ rest).
Proof.
  apply (bootstrap_pattern_matches_verbatim sample_io sample_set_prompt None ["a.b"; "#"]
           (mkDeviceStream sample_io sample_set_prompt "a\.b|\#" None) "axb host" 0).
  - discriminate.
  - reflexivity.
  - reflexivity.
Defined.

(** ** The command dispatcher *)

Section StreamFacts.

Variable re_search : string -> string -> Z -> option bool.


(** *** [send_commands] with the pattern list spelt out *)

Lemma send_commands_eq (cmd_list : pyval) (sc sp : bool) (patterns : pyval) (fl : Z)
    (self : DeviceStream) :
  send_commands re_search cmd_list sc sp patterns fl self
  = match pattern_list_of patterns (_prompt_pattern self) with
    | Ok pl => dispatch re_search pl cmd_list sc sp fl self
    | Raise e => (Raise e, self)
    | Blocked => (Blocked, self)
    end.
Proof.
  unfold send_commands, bind, get_pattern, lift.
  destruct (pattern_list_of patterns (_prompt_pattern self)); reflexivity.
Qed.

Lemma pattern_list_of_rejected (patterns : pyval) (cur : string) :
  patterns_rejected patterns = true -> pattern_list_of patterns cur = Raise ValueError.
Proof.
  unfold patterns_rejected, pattern_list_of.
  destruct patterns as [|b|n|s|l|l]; cbn; try discriminate.
  - now destruct b.
  - now destruct (Z.eqb n 0).
  - now destruct (String.eqb s "").
  - now destruct l.
  - now destruct l.
Qed.

Lemma pattern_list_of_accepted (patterns : pyval) (cur : string) :
  patterns_rejected patterns = false -> exists pl, pattern_list_of patterns cur = Ok pl.
Proof.
  unfold patterns_rejected, pattern_list_of.
  destruct patterns as [|b|n|s|l|l]; cbn.
  - intros _. eexists. reflexivity.
  - destruct b; [discriminate | intros _; eexists; reflexivity].
  - destruct (Z.eqb n 0); [intros _; eexists; reflexivity | discriminate].
  - intros _. destruct (String.eqb s ""); eexists; reflexivity.
  - intros _. destruct l; eexists; reflexivity.
  - destruct l; [intros _; eexists; reflexivity | discriminate].
Qed.

(** *** What [_read_until] reads *)

Lemma read_loop_spec (pl : list pyval) (fl : Z) (chunks : list string) :
  forall output tr r io',
    read_loop re_search pl fl output chunks tr = (r, io') ->
    exists taken,
      chunks = (taken ++ incoming io')%list
      /\ trace io' = (tr ++ map EvRead taken)%list
      /\ (forall n, 0 < n < List.length taken ->
            search_any re_search pl (fold_left String.append (firstn n taken) output) fl
            = Ok false)
      /\ match r with
         | Ok res =>
             taken <> []
             /\ search_any re_search pl (fold_left String.append taken output) fl = Ok true
             /\ res = _normalize_linefeeds (fold_left String.append taken output)
         | _ => True
         end.
Proof.
  induction chunks as [|buf rest IH]; intros output tr r io' H; cbn [read_loop] in H.
  - injection H as <- <-. exists []. cbn. rewrite app_nil_r.
    repeat split; intros; lia.
  - destruct (search_any re_search pl (output ++ buf) fl) as [[|]|e|] eqn:Hs.
    + injection H as <- <-. exists [buf]. cbn.
      repeat split; try congruence; intros; lia.
    + apply IH in H as (taken & Hc & Ht & Hpre & Hr).
      exists (buf :: taken). cbn [app map fold_left List.length]. repeat split.
      * now rewrite Hc.
      * rewrite Ht, <- app_assoc. reflexivity.
      * intros n Hn. destruct n as [|n]; [lia|]. cbn [firstn fold_left].
        destruct n as [|n]; [exact Hs|]. apply Hpre. lia.
      * destruct r; [|exact I|exact I]. destruct Hr as (_ & Hm & Hres).
        repeat split; [discriminate | exact Hm | exact Hres].
    + injection H as <- <-. exists [buf]. cbn. repeat split; intros; lia.
    + injection H as <- <-. exists [buf]. cbn. repeat split; intros; lia.
Qed.

(** *** What [send_commands] leaves unchanged *)

Lemma send_loop_config (pl : list pyval) (fl : Z) (sc sp : bool) (cmds : list pyval) :
  forall output self,
    let self' := snd (send_loop re_search pl fl sc sp cmds output self) in
    _prompt_pattern self' = _prompt_pattern self
    /\ _set_prompt_func self' = _set_prompt_func self
    /\ _nopage_cmd self' = _nopage_cmd self.
Proof.
  induction cmds as [|cmd rest IH]; intros output self; cbn [send_loop].
  - cbn. auto.
  - destruct cmd as [| | |c|l|l]; try (cbn; auto; fail).
    unfold bind at 1. cbn [_send]. unfold bind, _read_until.
    destruct (read_loop re_search pl fl "" _ _) as [[buf|e|] io']; cbn [snd].
    + destruct (IH (output ++ (let buf0 := if sc then _strip_command c buf else buf in
                              if sp then _strip_prompt buf0 else buf0))
                  (with_io io' (with_io (io_log (EvSend (_normalize_cmd c))
                                                 (_io_connection self)) self)))
        as (H1 & H2 & H3).
      cbn zeta in *. rewrite H1, H2, H3. cbn. auto.
    + cbn. auto.
    + cbn. auto.
Qed.

Lemma send_commands_config (cmd_list : pyval) (sc sp : bool) (patterns : pyval) (fl : Z)
    (self : DeviceStream) :
  let self' := snd (send_commands re_search cmd_list sc sp patterns fl self) in
  _prompt_pattern self' = _prompt_pattern self
  /\ _set_prompt_func self' = _set_prompt_func self
  /\ _nopage_cmd self' = _nopage_cmd self.
Proof.
  cbv zeta. rewrite send_commands_eq.
  destruct (pattern_list_of patterns (_prompt_pattern self)) as [pl|e|]; cbn [snd]; auto.
  unfold dispatch, bind, lift.
  destruct (py_iter (if isinstance_str cmd_list then PyList [cmd_list] else cmd_list))
    as [cmds|e|]; cbn [snd]; auto.
  apply send_loop_config.
Qed.

Lemma after_calls_pattern (calls : list call) : forall self,
  _prompt_pattern (after_calls re_search calls self) = _prompt_pattern self.
Proof.
  unfold after_calls. induction calls as [|c calls IH]; intros self; [reflexivity|].
  cbn [fold_left]. rewrite IH. apply send_commands_config.
Qed.

(** *** The trace of the command loop *)

Lemma send_loop_trace (pl : list pyval) (fl : Z) (sc sp : bool) (cmds : list string) :
  forall output self r self',
    send_loop re_search pl fl sc sp (map PyStr cmds) output self = (r, self') ->
    exists done exchanges pending chunks,
      List.length exchanges = List.length done
      /\ Forall (first_match_at_end re_search pl fl) exchanges
      /\ trace (_io_connection self')
         = (trace (_io_connection self) ++ session_events done exchanges ++ pending)%list
      /\ incoming (_io_connection self)
         = (concat exchanges ++ chunks ++ incoming (_io_connection self'))%list
      /\ (forall n, 0 < n < List.length chunks ->
            search_any re_search pl (buffer_of (firstn n chunks)) fl = Ok false)
      /\ match r with
         | Ok _ => done = cmds /\ pending = [] /\ chunks = []
         | _ => exists c rest,
                  cmds = (done ++ c :: rest)%list /\ pending = exchange_events c chunks
         end.
Proof.
  induction cmds as [|c rest IH]; intros output self r self' H.
  - cbn in H. injection H as <- <-. exists [], [], [], []. cbn.
    rewrite app_nil_r. repeat split; auto. intros; lia.
  - cbn [map send_loop] in H. unfold bind at 1 in H. cbn [_send] in H.
    unfold bind, _read_until in H.
    cbn [with_io _io_connection io_log incoming trace] in H.
    destruct (read_loop re_search pl fl "" (incoming (_io_connection self))
                (trace (_io_connection self) ++ [EvSend (_normalize_cmd c)]))
      as [r1 io'] eqn:Hrl.
    apply read_loop_spec in Hrl as (taken & Hin & Htr & Hpre & Hres).
    destruct r1 as [buf|e|].
    + destruct Hres as (Hne & Hm & _).
      apply IH in H
        as (done & exchanges & pending & chunks & Hlen & Hall & Htr' & Hin' & Hpre' & Hr).
      cbn [with_io _io_connection] in Htr', Hin'.
      exists (c :: done), (taken :: exchanges), pending, chunks. repeat split.
      * cbn. now rewrite Hlen.
      * constructor; [|exact Hall]. repeat split; assumption.
      * rewrite Htr', Htr. cbn [session_events exchange_events].
        rewrite <- !app_assoc. reflexivity.
      * rewrite Hin, Hin'. cbn [concat]. rewrite <- !app_assoc. reflexivity.
      * exact Hpre'.
      * destruct r as [out|e|].
        -- destruct Hr as (-> & -> & ->). auto.
        -- destruct Hr as (c' & rest' & -> & ->). now exists c', rest'.
        -- destruct Hr as (c' & rest' & -> & ->). now exists c', rest'.
    + injection H as <- <-. exists [], [], (exchange_events c taken), taken.
      cbn [with_io _io_connection session_events concat app List.length].
      repeat split; auto.
      * rewrite Htr. unfold exchange_events. rewrite <- app_assoc. reflexivity.
      * now exists c, rest.
    + injection H as <- <-. exists [], [], (exchange_events c taken), taken.
      cbn [with_io _io_connection session_events concat app List.length].
      repeat split; auto.
      * rewrite Htr. unfold exchange_events. rewrite <- app_assoc. reflexivity.
      * now exists c, rest.
Qed.

Lemma sends_of_app (a b : list io_event) : sends_of (a ++ b) = (sends_of a ++ sends_of b)%list.
Proof.
  induction a as [|ev a IH]; [reflexivity|].
  destruct ev; cbn [app sends_of]; rewrite IH; reflexivity.
Qed.

Lemma sends_of_reads (chunks : list string) : sends_of (map EvRead chunks) = [].
Proof. induction chunks as [|x l IH]; [reflexivity | exact IH]. Qed.

Lemma sends_of_session (cmds : list string) : forall exchanges,
  List.length exchanges = List.length cmds ->
  sends_of (session_events cmds exchanges) = map _normalize_cmd cmds.
Proof.
  induction cmds as [|c cmds IH]; intros [|x xs] Hlen; try discriminate; [reflexivity|].
  cbn [session_events exchange_events app sends_of map].
  rewrite sends_of_app, sends_of_reads, IH; [reflexivity|]. cbn in Hlen. lia.
Qed.

(** C9. The commands of one call are run one after the other.  The trace
    of the call is the exchange of the first command, then that of the
    second, and so on: one write per command, of the normalized command, in
    list order, followed by that command's reads, which are the next chunks
    of the transport and end on the first chunk after which a terminator
    pattern is found.  A call that raises or blocks stops inside one
    exchange: the commands before it are complete, no later one is begun. *)
Theorem send_commands_sequential
    (cmds : list string) (sc sp : bool) (patterns : pyval) (fl : Z)
    (self self' : DeviceStream) (pl : list pyval) (r : outcome string) :
  pattern_list_of patterns (_prompt_pattern self) = Ok pl ->
  send_commands re_search (PyList (map PyStr cmds)) sc sp patterns fl self = (r, self') ->
  exists done exchanges pending chunks,
    List.length exchanges = List.length done
    /\ Forall (first_match_at_end re_search pl fl) exchanges
    /\ trace (_io_connection self')
       = (trace (_io_connection self) ++ session_events done exchanges ++ pending)%list
    /\ incoming (_io_connection self)
       = (concat exchanges ++ chunks ++ incoming (_io_connection self'))%list
    /\ match r with
       | Ok _ =>
           done = cmds /\ pending = [] /\ chunks = []
           /\ sends_of (session_events done exchanges) = map _normalize_cmd cmds
       | _ =>
           exists c rest,
             cmds = (done ++ c :: rest)%list
             /\ pending = exchange_events c chunks
             /\ sends_of (session_events done exchanges ++ pending)
                = map _normalize_cmd (done ++ [c])
             /\ forall n, 0 < n < List.length chunks ->
                  search_any re_search pl (buffer_of (firstn n chunks)) fl = Ok false
       end.
Proof.
  intros Hpl H. rewrite send_commands_eq, Hpl in H.
  unfold dispatch, bind, lift in H. cbn [isinstance_str py_iter] in H.
  apply send_loop_trace in H
    as (done & exchanges & pending & chunks & Hlen & Hall & Htr & Hin & Hpre & Hr).
  exists done, exchanges, pending, chunks. repeat split; try assumption.
  destruct r as [out|e|].
  - destruct Hr as (-> & -> & ->). repeat split. now apply sends_of_session.
  - destruct Hr as (c & rest & -> & ->). exists c, rest. repeat split; [|exact Hpre].
    rewrite sends_of_app, (sends_of_session _ _ Hlen), map_app.
    cbn [exchange_events sends_of map]. now rewrite sends_of_reads.
  - destruct Hr as (c & rest & -> & ->). exists c, rest. repeat split; [|exact Hpre].
    rewrite sends_of_app, (sends_of_session _ _ Hlen), map_app.
    cbn [exchange_events sends_of map]. now rewrite sends_of_reads.
Qed.

(** When the option is absent [_session_preparation] gives [None] to
    [send_commands], whose loop cannot iterate over it. *)
Lemma session_preparation_none (self : DeviceStream) :
  _nopage_cmd self = None ->
  _session_preparation re_search self = (Raise TypeError, self).
Proof.
  intros H. unfold _session_preparation, bind. rewrite H.
  cbn [pyval_of_opt]. rewrite send_commands_eq. reflexivity.
Qed.

(** [_find_prompt] in one equation: the probe runs under the two-line
    pattern; its result goes to the prompt setter. *)
Lemma find_prompt_eq (self : DeviceStream) :
  _find_prompt re_search self
  = match send_commands re_search (PyStr nl) false false PyNone
            (Z.lor re_MULTILINE re_DOTALL)
            (with_pattern (two_line_pattern (_prompt_pattern self)) self) with
    | (Ok raw, s') => (Ok raw, with_pattern (_set_prompt_func self raw) s')
    | (Raise e, s') => (Raise e, s')
    | (Blocked, s') => (Blocked, s')
    end.
Proof.
  unfold _find_prompt, bind, get_pattern, set_pattern, ret.
  change ("(" ++ _prompt_pattern self ++ ").*$.*(" ++ _prompt_pattern self ++ ")$")
    with (two_line_pattern (_prompt_pattern self)).
  pose proof (send_commands_config (PyStr nl) false false PyNone
                (Z.lor re_MULTILINE re_DOTALL)
                (with_pattern (two_line_pattern (_prompt_pattern self)) self))
    as (_ & Hf & _).
  destruct (send_commands re_search (PyStr nl) false false PyNone
              (Z.lor re_MULTILINE re_DOTALL)
              (with_pattern (two_line_pattern (_prompt_pattern self)) self))
    as [[raw|e|] s']; cbn [snd] in Hf; [|reflexivity|reflexivity].
  now rewrite Hf.
Qed.

Lemma find_prompt_nopage (self : DeviceStream) :
  _nopage_cmd (snd (_find_prompt re_search self)) = _nopage_cmd self.
Proof.
  rewrite find_prompt_eq.
  pose proof (send_commands_config (PyStr nl) false false PyNone
                (Z.lor re_MULTILINE re_DOTALL)
                (with_pattern (two_line_pattern (_prompt_pattern self)) self))
    as (_ & _ & Hn).
  destruct (send_commands re_search (PyStr nl) false false PyNone
              (Z.lor re_MULTILINE re_DOTALL)
              (with_pattern (two_line_pattern (_prompt_pattern self)) self))
    as [[raw|e|] s']; cbn [snd] in *; exact Hn.
Qed.

(** C1, where the code departs from it.  With no pagination command the
    preparation stage writes nothing and reads nothing, but it does not
    return the empty string: it raises [TypeError], and so [connect] never
    returns. *)
Theorem session_preparation_without_nopage_raises (self : DeviceStream) :
  _nopage_cmd self = None ->
  _session_preparation re_search self = (Raise TypeError, self)
  /\ forall out self', connect re_search self <> (Ok out, self').
Proof.
  intros H. split; [now apply session_preparation_none|].
  intros out self'. unfold connect, bind at 1. cbn [io_call].
  unfold bind at 1.
  pose proof (find_prompt_nopage (with_io (io_log EvConnect (_io_connection self)) self))
    as Hn.
  destruct (_find_prompt re_search (with_io (io_log EvConnect (_io_connection self)) self))
    as [[buf|e|] s1]; cbn [snd] in Hn; try discriminate.
  unfold bind. rewrite session_preparation_none; [discriminate|].
  now rewrite Hn.
Qed.

(** Once a command is written the trace of the transport is longer for
    good: the loop of [send_commands] never shortens it. *)
Lemma send_loop_trace_length (pl : list pyval) (fl : Z) (sc sp : bool) (l : list pyval) :
  forall out self,
    List.length (trace (_io_connection self))
    <= List.length (trace (_io_connection (snd (send_loop re_search pl fl sc sp l out self)))).
Proof.
  induction l as [|cmd l IH]; intros out self; cbn [send_loop]; [cbn; lia|].
  destruct cmd as [| | |c|x|x]; try (cbn; lia).
  unfold bind at 1. cbn [_send]. unfold bind, _read_until.
  cbn [with_io _io_connection io_log incoming trace].
  destruct (read_loop re_search pl fl "" (incoming (_io_connection self))
              (trace (_io_connection self) ++ [EvSend (_normalize_cmd c)]))
    as [r1 io'] eqn:Hrl.
  apply read_loop_spec in Hrl as (taken & _ & Htr & _ & _).
  assert (Hio : List.length (trace (_io_connection self)) < List.length (trace io'))
    by (rewrite Htr, !length_app; cbn; lia).
  destruct r1 as [buf|e|]; cbn [snd with_io _io_connection]; try lia.
  match goal with
  | |- _ <= List.length (trace (_io_connection (snd (send_loop _ _ _ _ _ _ ?o ?s)))) =>
      specialize (IH o s)
  end.
  cbn [with_io _io_connection] in IH. lia.
Qed.

(** A run of the loop that leaves the stream as it was has written
    nothing: it met no command, or a first command that is no string. *)
Lemma send_loop_unchanged (pl : list pyval) (fl : Z) (sc sp : bool) (l : list pyval)
    (out : string) (self : DeviceStream) (r : outcome string) :
  send_loop re_search pl fl sc sp l out self = (r, self) ->
  r = Ok out \/ r = Raise AttributeError.
Proof.
  destruct l as [|cmd l]; [cbn; intros H; injection H as <-; now left|].
  destruct cmd as [| | |c|x|x];
    try (cbn; intros H; injection H as <-; now right).
  intros H. exfalso.
  pose proof (send_loop_trace_length pl fl sc sp (PyStr c :: l) out self) as Hlen.
  cbn [send_loop] in H, Hlen. unfold bind at 1 in H. unfold bind at 1 in Hlen.
  cbn [_send] in H, Hlen. unfold bind, _read_until in H, Hlen.
  cbn [with_io _io_connection io_log incoming trace] in H, Hlen.
  destruct (read_loop re_search pl fl "" (incoming (_io_connection self))
              (trace (_io_connection self) ++ [EvSend (_normalize_cmd c)]))
    as [r1 io'] eqn:Hrl.
  apply read_loop_spec in Hrl as (taken & _ & Htr & _ & _).
  assert (Hio : List.length (trace (_io_connection self)) < List.length (trace io'))
    by (rewrite Htr, !length_app; cbn; lia).
  destruct r1 as [buf|e|].
  - match type of H with
    | send_loop _ _ _ _ _ _ ?o ?s = _ =>
        pose proof (send_loop_trace_length pl fl sc sp l o s) as Hrest
    end.
    rewrite H in Hrest. cbn [snd with_io _io_connection] in Hrest. lia.
  - injection H as _ H. rewrite <- H in Hio. cbn [with_io _io_connection] in Hio. lia.
  - injection H as _ H. rewrite <- H in Hio. cbn [with_io _io_connection] in Hio. lia.
Qed.

(** What [send_commands] can raise before any write, once the pattern
    list is built: [TypeError] for a command list it cannot iterate over,
    [AttributeError] for a first command that is no string. *)
Lemma dispatch_raise_unchanged (pl : list pyval) (cmd_list : pyval) (sc sp : bool) (fl : Z)
    (self : DeviceStream) (e : exn) :
  dispatch re_search pl cmd_list sc sp fl self = (Raise e, self) ->
  e = TypeError \/ e = AttributeError.
Proof.
  unfold dispatch, bind, lift.
  destruct (py_iter (if isinstance_str cmd_list then PyList [cmd_list] else cmd_list))
    as [cmds|e0|] eqn:Hit.
  - intros H. apply send_loop_unchanged in H as [H | H]; [discriminate|].
    injection H as ->. now right.
  - intros H. injection H as <-. left.
    destruct cmd_list; cbn in Hit; congruence.
  - discriminate.
Qed.

(** C2, as the code has it.  [send_commands] raises [ValueError] with
    the stream and its transport untouched, that is before any write or
    read, exactly when [patterns] is a true value that is neither a string
    nor a list: for such a value it does, and for any other value it does
    not, whatever it does later.  A false value of any type stands for no
    patterns, and a list is taken without a look at its elements. *)
Theorem send_commands_rejects_patterns
    (cmd_list : pyval) (sc sp : bool) (patterns : pyval) (fl : Z) (self : DeviceStream) :
  (patterns_rejected patterns = true ->
   send_commands re_search cmd_list sc sp patterns fl self = (Raise ValueError, self))
  /\ (patterns_rejected patterns = false ->
      send_commands re_search cmd_list sc sp patterns fl self <> (Raise ValueError, self))
  /\ (truthy patterns = false ->
      send_commands re_search cmd_list sc sp patterns fl self
      = send_commands re_search cmd_list sc sp PyNone fl self)
  /\ (forall l, patterns = PyList l ->
      send_commands re_search cmd_list sc sp patterns fl self
      = dispatch re_search (l ++ [PyStr (_prompt_pattern self)])%list cmd_list sc sp fl self).
Proof.
  split; [|split; [|split]].
  - intros H. rewrite send_commands_eq. now rewrite (pattern_list_of_rejected _ _ H).
  - intros H. rewrite send_commands_eq.
    destruct (pattern_list_of_accepted _ (_prompt_pattern self) H) as [pl ->].
    intros Hd. apply dispatch_raise_unchanged in Hd as [Hd | Hd]; discriminate.
  - intros H. rewrite !send_commands_eq. unfold pattern_list_of. now rewrite H.
  - intros l ->. rewrite send_commands_eq. now destruct l.
Qed.

(** C3, as the code has it.  The terminator patterns of a call are the
    current pattern alone when [patterns] is [None] or the empty string,
    the string then the current pattern when [patterns] is a string that is
    not empty, and the list followed by the current pattern when [patterns]
    is a list: the current pattern always comes last. *)
Theorem send_commands_effective_patterns
    (cmd_list : pyval) (sc sp : bool) (fl : Z) (self : DeviceStream) :
  let cur := PyStr (_prompt_pattern self) in
  send_commands re_search cmd_list sc sp PyNone fl self
  = dispatch re_search [cur] cmd_list sc sp fl self
  /\ (forall s, s <> "" ->
        send_commands re_search cmd_list sc sp (PyStr s) fl self
        = dispatch re_search [PyStr s; cur] cmd_list sc sp fl self)
  /\ send_commands re_search cmd_list sc sp (PyStr "") fl self
     = dispatch re_search [cur] cmd_list sc sp fl self
  /\ (forall l,
        send_commands re_search cmd_list sc sp (PyList (map PyStr l)) fl self
        = dispatch re_search (map PyStr l ++ [cur])%list cmd_list sc sp fl self).
Proof.
  cbv zeta. split; [|split; [|split]]; intros; rewrite send_commands_eq.
  - reflexivity.
  - unfold pattern_list_of. cbn [truthy isinstance_str].
    destruct (String.eqb_spec s ""); [contradiction | reflexivity].
  - reflexivity.
  - destruct l; reflexivity.
Qed.






(** What the probe of [_find_prompt] returns: all it read, with the line
    endings normalized and nothing stripped. *)
Lemma probe_raw (self s' : DeviceStream) (raw : string) (patterns : pyval) (fl : Z) :
  send_commands re_search (PyStr nl) false false patterns fl self = (Ok raw, s') ->
  exists chunks,
    trace (_io_connection s')
    = (trace (_io_connection self) ++ exchange_events nl chunks)%list
    /\ incoming (_io_connection self) = (chunks ++ incoming (_io_connection s'))%list
    /\ raw = _normalize_linefeeds (buffer_of chunks).
Proof.
  rewrite send_commands_eq.
  destruct (pattern_list_of patterns (_prompt_pattern self)) as [pl|e|]; try discriminate.
  unfold dispatch, lift. cbn [isinstance_str py_iter]. unfold bind at 1.
  cbn [send_loop]. unfold bind at 1. cbn [_send]. unfold bind, _read_until, ret.
  cbn [with_io _io_connection io_log incoming trace].
  destruct (read_loop re_search pl fl "" (incoming (_io_connection self))
              (trace (_io_connection self) ++ [EvSend (_normalize_cmd nl)]))
    as [r1 io'] eqn:Hrl.
  apply read_loop_spec in Hrl as (taken & Hin & Htr & _ & Hres).
  destruct r1 as [buf|e|]; try discriminate.
  destruct Hres as (_ & _ & ->). intros H. injection H as <- <-.
  exists taken. cbn [with_io _io_connection]. split; [|split].
  - rewrite Htr, <- app_assoc. reflexivity.
  - exact Hin.
  - reflexivity.
Qed.

(** C8. What the probe returns -- the reply to a bare newline, nothing
    stripped -- goes as it is to the prompt setter, whose answer becomes
    the pattern of the stream; no later call to [send_commands] changes
    it, and each of them ends its terminator patterns with it. *)
Theorem find_prompt_learns_pattern (self s' : DeviceStream) (raw : string) :
  send_commands re_search (PyStr nl) false false PyNone (Z.lor re_MULTILINE re_DOTALL)
    (with_pattern (two_line_pattern (_prompt_pattern self)) self) = (Ok raw, s') ->
  let learned := _set_prompt_func self raw in
  _find_prompt re_search self = (Ok raw, with_pattern learned s')
  /\ (exists chunks,
        trace (_io_connection s')
        = (trace (_io_connection self) ++ EvSend nl :: map EvRead chunks)%list
        /\ raw = _normalize_linefeeds (buffer_of chunks))
  /\ (forall calls,
        _prompt_pattern (after_calls re_search calls (with_pattern learned s')) = learned)
  /\ (forall patterns pl,
        pattern_list_of patterns learned = Ok pl ->
        exists extras, pl = (extras ++ [PyStr learned])%list).
Proof.
  intros H. cbv zeta. split; [|split; [|split]].
  - rewrite find_prompt_eq, H. reflexivity.
  - apply probe_raw in H as (chunks & Htr & _ & Hraw).
    exists chunks. split; [exact Htr | exact Hraw].
  - intros calls. now rewrite after_calls_pattern.
  - intros patterns pl. unfold pattern_list_of.
    destruct (negb (truthy patterns)).
    { intros E. injection E as <-. now exists []. }
    destruct patterns as [|b|n|s|l|l]; cbn [isinstance_str]; try discriminate.
    + intros E. injection E as <-. now exists [PyStr s].
    + intros E. injection E as <-. now exists l.
Qed.

End StreamFacts.

(** ** The sample session *)

Example sample_probe :
  _find_prompt re_search_model sample_stream
  = (Ok ("host#" ++ nl ++ "host#"),
     mkDeviceStream
       (mkIO ["show ip" ++ nl ++ "10.0.0.1" ++ String CR nl; "host#";
              "show run" ++ nl ++ "hostname host" ++ nl ++ "host#"]
             [EvSend nl; EvRead ("host#" ++ nl); EvRead "host#"])
       sample_set_prompt "host\#" None).
Proof. vm_compute. reflexivity. Qed.

Lemma send_commands_sequential_witness :
  exists done exchanges pending chunks,
    List.length exchanges = List.length done
    /\ Forall (first_match_at_end re_search_model [PyStr "host\#"] 0) exchanges
    /\ trace (_io_connection
                (snd (send_commands re_search_model
                        (PyList (map PyStr ["show ip"; "show run"])) true true PyNone 0
                        sample_ready)))
       = (trace (_io_connection sample_ready) ++ session_events done exchanges ++ pending)%list
    /\ incoming (_io_connection sample_ready)
       = (concat exchanges ++ chunks
            ++ incoming (_io_connection
                           (snd (send_commands re_search_model
                                   (PyList (map PyStr ["show ip"; "show run"])) true true
                                   PyNone 0 sample_ready))))%list
    /\ match Ok (nl ++ "10.0.0.1" ++ nl ++ "hostname host") with
       | Ok _ =>
           done = ["show ip"; "show run"] /\ pending = [] /\ chunks = []
           /\ sends_of (session_events done exchanges)
              = map _normalize_cmd ["show ip"; "show run"]
       | _ =>
           exists c rest,
             ["show ip"; "show run"] = (done ++ c :: rest)%list
             /\ pending = exchange_events c chunks
             /\ sends_of (session_events done exchanges ++ pending)
                = map _normalize_cmd (done ++ [c])
             /\ forall n, 0 < n < List.length chunks ->
                  search_any re_search_model [PyStr "host\#"] (buffer_of (firstn n chunks)) 0
                  = Ok false
       end.
Proof.
  apply (send_commands_sequential re_search_model ["show ip"; "show run"] true true PyNone 0
           sample_ready).
  - vm_compute. reflexivity.
  - vm_compute. reflexivity.
Defined.

Lemma session_preparation_without_nopage_raises_witness :
  _nopage_cmd sample_ready = None
  /\ _session_preparation re_search_model sample_ready = (Raise TypeError, sample_ready)
  /\ forall out self', connect re_search_model sample_stream <> (Ok out, self').
Proof.
  split; [reflexivity|]. split.
  - apply (session_preparation_without_nopage_raises re_search_model sample_ready).
    reflexivity.
  - apply (session_preparation_without_nopage_raises re_search_model sample_stream).
    reflexivity.
Defined.

(** The sample device answers the probe, and [connect] then fails in the
    preparation stage, after the probe's write and reads and with none of
    its own. *)
Example connect_without_nopage_sample :
  fst (connect re_search_model sample_stream) = Raise TypeError
  /\ trace (_io_connection (snd (connect re_search_model sample_stream)))
     = [EvConnect; EvSend nl; EvRead ("host#" ++ nl); EvRead "host#"].
Proof. split; vm_compute; reflexivity. Qed.

Lemma send_commands_rejects_patterns_witness :
  send_commands re_search_model (PyStr "show ip") true true (PyTuple [PyStr "x"]) 0
    sample_ready = (Raise ValueError, sample_ready)
  /\ send_commands re_search_model (PyStr "show ip") true true (PyStr "x") 0 sample_ready
     <> (Raise ValueError, sample_ready)
  /\ send_commands re_search_model (PyStr "show ip") true true (PyInt 0) 0 sample_ready
     = send_commands re_search_model (PyStr "show ip") true true PyNone 0 sample_ready
  /\ send_commands re_search_model (PyStr "show ip") true true (PyList [PyInt 1]) 0
       sample_ready
     = dispatch re_search_model ([PyInt 1] ++ [PyStr (_prompt_pattern sample_ready)])
         (PyStr "show ip") true true 0 sample_ready.
Proof.
  split; [|split; [|split]].
  - apply (send_commands_rejects_patterns re_search_model (PyStr "show ip") true true
             (PyTuple [PyStr "x"]) 0 sample_ready). reflexivity.
  - apply (send_commands_rejects_patterns re_search_model (PyStr "show ip") true true
             (PyStr "x") 0 sample_ready). reflexivity.
  - apply (send_commands_rejects_patterns re_search_model (PyStr "show ip") true true
             (PyInt 0) 0 sample_ready). reflexivity.
  - destruct (send_commands_rejects_patterns re_search_model (PyStr "show ip") true true
                (PyList [PyInt 1]) 0 sample_ready) as (_ & _ & _ & H).
    apply (H [PyInt 1]). reflexivity.
Defined.

(** C2 as stated fails.  The integer [0] is present and is neither a
    string nor a list of strings, yet the call is not refused: it runs as
    if no patterns were given.  A list that holds an integer is not refused
    either: the command is written and a chunk read before [re.search]
    raises [TypeError]. *)
Lemma send_commands_patterns_not_rejected :
  present_not_str_nor_str_list (PyInt 0) = true
  /\ fst (send_commands re_search_model (PyStr "show ip") true true (PyInt 0) 0 sample_ready)
     = Ok (nl ++ "10.0.0.1")
  /\ present_not_str_nor_str_list (PyList [PyInt 1]) = true
  /\ fst (send_commands re_search_model (PyStr "show ip") true true (PyList [PyInt 1]) 0
            sample_ready) = Raise TypeError
  /\ trace (_io_connection
              (snd (send_commands re_search_model (PyStr "show ip") true true
                      (PyList [PyInt 1]) 0 sample_ready)))
     = (trace (_io_connection sample_ready)
          ++ [EvSend ("show ip" ++ nl);
              EvRead ("show ip" ++ nl ++ "10.0.0.1" ++ String CR nl)])%list.
Proof. repeat split; vm_compute; reflexivity. Qed.

Lemma send_commands_effective_patterns_witness :
  send_commands re_search_model (PyStr "show ip") true true (PyStr "More") 0 sample_ready
  = dispatch re_search_model [PyStr "More"; PyStr "host\#"] (PyStr "show ip") true true 0
      sample_ready
  /\ send_commands re_search_model (PyStr "show ip") true true
       (PyList (map PyStr ["More"; "Done"])) 0 sample_ready
     = dispatch re_search_model [PyStr "More"; PyStr "Done"; PyStr "host\#"]
         (PyStr "show ip") true true 0 sample_ready.
Proof.
  destruct (send_commands_effective_patterns re_search_model (PyStr "show ip") true true 0
              sample_ready) as (_ & Hs & _ & Hl).
  split.
  - apply (Hs "More"). discriminate.
  - apply (Hl ["More"; "Done"]).
Defined.

(** C3 as stated fails on the empty string: the pattern list is the
    current pattern alone, not the empty string followed by it.  The
    difference shows on the transport: the empty pattern would be found
    after the first chunk, as it is when it comes in a list, but the call
    reads on to the prompt. *)
Lemma send_commands_empty_string_pattern :
  pattern_list_of (PyStr "") "host\#" = Ok [PyStr "host\#"]
  /\ pattern_list_of (PyStr "") "host\#" <> Ok [PyStr ""; PyStr "host\#"]
  /\ List.length (incoming (_io_connection
        (snd (send_commands re_search_model (PyStr "show ip") true true (PyStr "") 0
                sample_ready)))) = 1
  /\ List.length (incoming (_io_connection
        (snd (dispatch re_search_model [PyStr ""; PyStr "host\#"] (PyStr "show ip")
                true true 0 sample_ready)))) = 2.
Proof.
  split; [reflexivity|]. split; [discriminate|]. split; vm_compute; reflexivity.
Qed.

(** C4, where the code departs from it.  The device echoes the
    normalized command, the command with its newline, 13 characters;
    [send_commands] gives [_strip_command] the command as the caller wrote
    it, 12 characters, while [_send] wrote the normalized one, and the
    newline of the echo stays. *)
Lemma strip_command_keeps_echoed_newline :
  let self :=
    mkDeviceStream (mkIO ["show version" ++ nl ++ "Router>"] []) sample_set_prompt
      "Router>" None in
  str_contains BS (_normalize_cmd "show version" ++ "Router>") = false
  /\ trace (_io_connection
              (snd (send_commands re_search_model (PyStr "show version") true false PyNone 0
                      self)))
     = [EvSend (_normalize_cmd "show version");
        EvRead (_normalize_cmd "show version" ++ "Router>")]
  /\ fst (send_commands re_search_model (PyStr "show version") true false PyNone 0 self)
     = Ok (nl ++ "Router>")
  /\ _strip_command "show version" (_normalize_cmd "show version" ++ "Router>")
     <> str_drop (String.length (_normalize_cmd "show version"))
          (_normalize_cmd "show version" ++ "Router>").
Proof.
  cbv zeta. split; [reflexivity|]. split; [vm_compute; reflexivity|].
  split; [vm_compute; reflexivity|]. vm_compute. discriminate.
Qed.

(** The sibling paths on the same echo take the whole echoed line: the
    backspace branch drops it with its newline, and so does the length
    branch when it is given the command as it was sent. *)
Example strip_command_echo_sibling_paths :
  _strip_command "show version" ("show ver" ++ String BS ("sion" ++ nl ++ "Router>"))
  = "Router>"
  /\ _strip_command (_normalize_cmd "show version")
       (_normalize_cmd "show version" ++ "Router>") = "Router>"
  /\ _strip_command "show version" (_normalize_cmd "show version" ++ "Router>")
     = nl ++ "Router>".
Proof. repeat split. Qed.



Lemma find_prompt_learns_pattern_witness :
  _find_prompt re_search_model sample_stream
  = (Ok ("host#" ++ nl ++ "host#"), sample_ready)
  /\ _prompt_pattern sample_ready = "host\#"
  /\ _prompt_pattern
       (after_calls re_search_model
          [mkCall (PyStr "show ip") true true PyNone 0;
           mkCall (PyStr "show run") true true (PyStr "More") 0]
          sample_ready) = "host\#".
Proof.
  destruct (find_prompt_learns_pattern re_search_model sample_stream
              (with_pattern (two_line_pattern "\#") (with_io (_io_connection sample_ready)
                                                       sample_stream))
              ("host#" ++ nl ++ "host#"))
    as (Hfp & _ & Hcalls & _).
  - vm_compute. reflexivity.
  - split; [|split].
    + rewrite Hfp. vm_compute. reflexivity.
    + vm_compute. reflexivity.
    + etransitivity; [|apply (Hcalls [mkCall (PyStr "show ip") true true PyNone 0;
                                      mkCall (PyStr "show run") true true (PyStr "More") 0])].
      vm_compute. reflexivity.
Defined.

(** * Further properties of the module *)

(** ** [_normalize_cmd] *)

Lemma str_rstrip_ends (c : ascii) (s : string) : str_ends_with c (str_rstrip c s) = false.
Proof.
  induction s as [|a t IH]; [reflexivity|]. cbn [str_rstrip].
  destruct (str_rstrip c t) as [|b u] eqn:Ht.
  - destruct (Ascii.eqb a c) eqn:Ha; [reflexivity|]. cbn. exact Ha.
  - exact IH.
Qed.

Lemma str_rstrip_decompose (c : ascii) (s : string) :
  exists k, s = str_rstrip c s ++ str_repeat c k.
Proof.
  induction s as [|a t [k IH]]; [now exists 0|]. cbn [str_rstrip].
  destruct (str_rstrip c t) as [|b u] eqn:Ht.
  - destruct (Ascii.eqb_spec a c) as [->|Hne].
    + exists (S k). cbn in *. now rewrite IH at 1.
    + exists k. cbn in *. now rewrite IH at 1.
  - exists k. cbn in *. now rewrite IH at 1.
Qed.

Lemma str_rstrip_fixed (c : ascii) (s : string) :
  str_ends_with c s = false -> str_rstrip c s = s.
Proof.
  induction s as [|a t IH]; [reflexivity|]. cbn [str_ends_with str_rstrip].
  destruct t as [|b u].
  - intros ->. reflexivity.
  - intros H. now rewrite (IH H).
Qed.

Lemma str_rstrip_snoc_repeat (c : ascii) (body : string) (k : nat) :
  str_ends_with c body = false -> str_rstrip c (body ++ str_repeat c k) = body.
Proof.
  intros Hb. induction body as [|a t IH].
  - cbn [String.append]. clear Hb. induction k as [|k IHk]; [reflexivity|].
    cbn [str_repeat str_rstrip]. rewrite IHk. now rewrite Ascii.eqb_refl.
  - cbn [String.append str_rstrip]. destruct t as [|b u].
    + cbn [str_ends_with] in Hb. cbn [String.append] in *.
      rewrite (IH eq_refl). now rewrite Hb.
    + cbn [str_ends_with] in Hb. rewrite (IH Hb). reflexivity.
Qed.

(** X1. A command is sent with its trailing newlines replaced by exactly
    one: the command is some text that does not end in a newline followed
    by any number of newlines, and what is sent is that text and one
    newline. *)
Theorem normalize_cmd_shape (cmd : string) :
  exists body k,
    cmd = body ++ str_repeat LF k
    /\ str_ends_with LF body = false
    /\ _normalize_cmd cmd = body ++ nl.
Proof.
  destruct (str_rstrip_decompose LF cmd) as [k Hk].
  exists (str_rstrip LF cmd), k. split; [exact Hk|]. split; [apply str_rstrip_ends|].
  reflexivity.
Qed.

(** X2. Normalizing is idempotent, any number of newlines added to a
    command change nothing of what is sent, and a command that does not end
    in a newline is sent with one appended. *)
Theorem normalize_cmd_idempotent (cmd : string) (k : nat) :
  _normalize_cmd (_normalize_cmd cmd) = _normalize_cmd cmd
  /\ _normalize_cmd (cmd ++ str_repeat LF k) = _normalize_cmd cmd
  /\ (str_ends_with LF cmd = false -> _normalize_cmd cmd = cmd ++ nl).
Proof.
  unfold _normalize_cmd. split; [|split].
  - change nl with (str_repeat LF 1).
    now rewrite (str_rstrip_snoc_repeat LF _ 1 (str_rstrip_ends LF cmd)).
  - destruct (str_rstrip_decompose LF cmd) as [j Hj].
    rewrite Hj at 1. rewrite str_append_assoc.
    assert (Hrep : forall a b, str_repeat LF a ++ str_repeat LF b = str_repeat LF (a + b)).
    { intros a b. induction a as [|a IH]; [reflexivity|]. cbn. now rewrite IH. }
    rewrite Hrep. now rewrite (str_rstrip_snoc_repeat LF _ _ (str_rstrip_ends LF cmd)).
  - intros H. now rewrite (str_rstrip_fixed _ _ H).
Qed.

Lemma normalize_cmd_idempotent_witness :
  str_ends_with LF "show version" = false
  /\ _normalize_cmd "show version" = "show version" ++ nl.
Proof.
  split; [reflexivity|].
  apply (normalize_cmd_idempotent "show version" 0). reflexivity.
Defined.

(** ** [_strip_prompt] and [_strip_command] *)

Lemma str_split_cons (c : ascii) (s : string) :
  exists h r, str_split c s = h :: r.
Proof.
  induction s as [|a t [h [r IH]]]; cbn [str_split]; [now exists "", []|].
  destruct (Ascii.eqb a c); [now eexists _, _|]. rewrite IH. now eexists _, _.
Qed.

(** Splitting at a separator: the lines before it, then the lines after. *)
Lemma str_split_app (c : ascii) (a b : string) :
  str_split c (a ++ String c b) = (str_split c a ++ str_split c b)%list.
Proof.
  induction a as [|x t IH]; cbn [String.append str_split].
  - now rewrite Ascii.eqb_refl.
  - destruct (Ascii.eqb x c); [now rewrite IH|]. rewrite IH.
    destruct (str_split_cons c t) as [h [r ->]]. reflexivity.
Qed.

(** Joining the lines of a text gives the text back. *)
Lemma str_join_cons (sep x y : string) (l : list string) :
  str_join sep (x :: y :: l) = x ++ sep ++ str_join sep (y :: l).
Proof. reflexivity. Qed.

Lemma str_join_split (c : ascii) (s : string) :
  str_join (String c "") (str_split c s) = s.
Proof.
  induction s as [|a t IH]; [reflexivity|]. cbn [str_split].
  destruct (str_split_cons c t) as [h [r Hs]]. rewrite Hs in *.
  destruct (Ascii.eqb_spec a c) as [->|Hne].
  - rewrite str_join_cons, IH. reflexivity.
  - destruct r as [|h' r].
    + cbn in IH. cbn. now rewrite IH.
    + rewrite str_join_cons in *. rewrite <- IH. reflexivity.
Qed.

Lemma str_contains_app (c : ascii) (a b : string) :
  str_contains c (a ++ b) = str_contains c a || str_contains c b.
Proof.
  induction a as [|x t IH]; [reflexivity|]. cbn [String.append str_contains].
  now rewrite IH, orb_assoc.
Qed.

Lemma str_contains_remove (c : ascii) (s : string) : str_contains c (str_remove c s) = false.
Proof.
  induction s as [|a t IH]; [reflexivity|]. cbn [str_remove].
  destruct (Ascii.eqb a c) eqn:Ha; [exact IH|]. cbn [str_contains]. now rewrite Ha, IH.
Qed.

(** A text that holds the character splits at its first occurrence. *)
Lemma str_first_occurrence (c : ascii) (s : string) :
  str_contains c s = true ->
  exists first rest, s = first ++ String c rest /\ str_contains c first = false.
Proof.
  induction s as [|a t IH]; [discriminate|]. cbn [str_contains].
  destruct (Ascii.eqb_spec a c) as [->|Hne].
  - intros _. now exists "", t.
  - cbn [orb]. intros H. destruct (IH H) as (first & rest & -> & Hf).
    exists (String a first), rest. split; [reflexivity|]. cbn [str_contains].
    rewrite Hf. now destruct (Ascii.eqb_spec a c).
Qed.

(** X3. [_strip_prompt] drops the last line and its newline, and nothing
    else: whatever stands before the last newline is returned as it is. *)
Theorem strip_prompt_drops_last_line (body line : string) :
  str_contains LF line = false ->
  _strip_prompt (body ++ nl ++ line) = body.
Proof.
  intros H. unfold _strip_prompt, all_but_last, nl. cbn [String.append].
  rewrite str_split_app, (str_split_no_sep _ _ H), removelast_last.
  apply str_join_split.
Qed.

Lemma strip_prompt_drops_last_line_witness :
  _strip_prompt (("12.4" ++ nl ++ "uptime 3 days") ++ nl ++ "Router>")
  = "12.4" ++ nl ++ "uptime 3 days".
Proof. apply strip_prompt_drops_last_line. reflexivity. Defined.

Lemma strip_command_backspace_eq (cmd output : string) :
  str_contains BS output = true ->
  _strip_command cmd output
  = str_join nl (all_but_first (str_split LF (str_remove BS output))).
Proof. intros H. unfold _strip_command. now rewrite H. Qed.

(** X4. When the output holds a backspace the command plays no part:
    the backspaces are removed and the first line dropped.  What follows the
    first newline of the cleaned output is returned as it is, no backspace
    is left in it, and an output of one line gives the empty string. *)
Theorem strip_command_with_backspace (cmd output : string) :
  str_contains BS output = true ->
  str_contains BS (_strip_command cmd output) = false
  /\ (forall first rest,
        str_remove BS output = first ++ nl ++ rest -> str_contains LF first = false ->
        _strip_command cmd output = rest)
  /\ (str_contains LF output = false -> _strip_command cmd output = "").
Proof.
  intros H. rewrite (strip_command_backspace_eq _ _ H).
  assert (Hsplit : forall first rest,
    str_remove BS output = first ++ nl ++ rest -> str_contains LF first = false ->
    str_join nl (all_but_first (str_split LF (str_remove BS output))) = rest).
  { intros first rest E Hf. rewrite E. unfold nl. cbn [String.append].
    rewrite str_split_app, (str_split_no_sep _ _ Hf). cbn [app all_but_first tl].
    apply str_join_split. }
  assert (Hone : str_contains LF (str_remove BS output) = false ->
    str_join nl (all_but_first (str_split LF (str_remove BS output))) = "").
  { intros Hn. now rewrite (str_split_no_sep _ _ Hn). }
  split; [|split].
  - destruct (str_contains LF (str_remove BS output)) eqn:Hlf.
    + destruct (str_first_occurrence _ _ Hlf) as (first & rest & E & Hf).
      rewrite (Hsplit first rest E Hf).
      pose proof (str_contains_remove BS output) as Hc.
      rewrite E, str_contains_app in Hc. apply orb_false_elim in Hc as [_ Hc].
      cbn [str_contains] in Hc. now apply orb_false_elim in Hc as [_ Hc].
    + now rewrite (Hone eq_refl).
  - exact Hsplit.
  - intros Hn. apply Hone. clear -Hn.
    induction output as [|a t IH]; [reflexivity|]. cbn [str_contains] in Hn.
    apply orb_false_elim in Hn as [Ha Ht]. cbn [str_remove].
    destruct (Ascii.eqb a BS); [now apply IH|]. cbn [str_contains]. now rewrite Ha, IH.
Qed.

Lemma strip_command_with_backspace_witness :
  _strip_command "show version"
    ("show ver" ++ String BS ("sion" ++ nl ++ "12.4" ++ nl ++ "Router>"))
  = "12.4" ++ nl ++ "Router>".
Proof.
  destruct (strip_command_with_backspace "show version"
              ("show ver" ++ String BS ("sion" ++ nl ++ "12.4" ++ nl ++ "Router>"))
              eq_refl) as (_ & H & _).
  apply (H "show version" ("12.4" ++ nl ++ "Router>")); reflexivity.
Defined.

Lemma str_drop_length (n : nat) : forall s,
  String.length (str_drop n s) = String.length s - n.
Proof.
  induction n as [|n IH]; intros s; cbn [str_drop]; [lia|].
  destruct s as [|a t]; [reflexivity|]. cbn [String.length]. now rewrite IH.
Qed.

(** X5. With no backspace in the output [_strip_command] cuts by length
    alone: the result is shorter by the length of the command, and a
    command at least as long as the output leaves the empty string.  The
    cut is made whether or not the output begins with the command. *)
Theorem strip_command_cuts_by_length (cmd output : string) :
  str_contains BS output = false ->
  String.length (_strip_command cmd output) = String.length output - String.length cmd
  /\ (String.length output <= String.length cmd -> _strip_command cmd output = "")
  /\ exists head, output = head ++ _strip_command cmd output.
Proof.
  intros H. rewrite (strip_command_no_backspace _ _ H). split; [|split].
  - apply str_drop_length.
  - intros Hle. pose proof (str_drop_length (String.length cmd) output) as Hl.
    destruct (str_drop (String.length cmd) output); [reflexivity|].
    cbn [String.length] in Hl. lia.
  - generalize (String.length cmd) as n. intros n. revert output H.
    induction n as [|n IH]; intros output H; [now exists ""|].
    destruct output as [|a t]; [now exists ""|]. cbn [str_drop].
    cbn [str_contains] in H. apply orb_false_elim in H as [_ Ht].
    destruct (IH t Ht) as [head Hh]. exists (String a head). cbn. now rewrite <- Hh.
Qed.

Lemma strip_command_cuts_by_length_witness :
  String.length (_strip_command "show version" ("sh ver" ++ nl ++ "12.4" ++ nl ++ "R>")) = 2.
Proof.
  destruct (strip_command_cuts_by_length "show version"
              ("sh ver" ++ nl ++ "12.4" ++ nl ++ "R>") eq_refl) as (H & _).
  exact H.
Defined.

(** ** [_normalize_linefeeds] *)

Lemma normalize_linefeeds_keeps_others_aux (n : nat) : forall s,
  String.length s <= n ->
  str_remove CR (_normalize_linefeeds s) = str_remove CR s.
Proof.
  induction n as [|n IH]; intros s Hn.
  - destruct s; [reflexivity | cbn in Hn; lia].
  - destruct s as [|a t]; [reflexivity|].
    destruct t as [|b u]; [reflexivity|].
    cbn [String.length] in Hn.
    assert (Ht : str_remove CR (_normalize_linefeeds (String b u)) = str_remove CR (String b u))
      by (apply IH; cbn [String.length]; lia).
    assert (Hu : str_remove CR (_normalize_linefeeds u) = str_remove CR u)
      by (apply IH; lia).
    assert (Hkeep : str_remove CR (String a (_normalize_linefeeds (String b u)))
                    = str_remove CR (String a (String b u))).
    { cbn [str_remove] in *. rewrite Ht. reflexivity. }
    rewrite normalize_linefeeds_eq.
    destruct (Ascii.eqb a CR && Ascii.eqb b CR) eqn:Hcc.
    + destruct u as [|c v]; [exact Hkeep|].
      destruct (Ascii.eqb c LF) eqn:Hc; [|exact Hkeep].
      apply andb_prop in Hcc as [Ha Hb]. apply Ascii.eqb_eq in Ha, Hb, Hc. subst a b c.
      assert (Hv : str_remove CR (_normalize_linefeeds v) = str_remove CR v)
        by (apply IH; cbn [String.length] in Hn; lia).
      cbn [str_remove]. cbn. now rewrite Hv.
    + destruct (Ascii.eqb a CR && Ascii.eqb b LF) eqn:H1.
      { apply andb_prop in H1 as [Ha Hb]. apply Ascii.eqb_eq in Ha, Hb. subst a b.
        cbn. now rewrite Hu. }
      destruct (Ascii.eqb a LF && Ascii.eqb b CR) eqn:H2.
      { apply andb_prop in H2 as [Ha Hb]. apply Ascii.eqb_eq in Ha, Hb. subst a b.
        cbn. now rewrite Hu. }
      exact Hkeep.
Qed.

(** X6. Normalizing the line endings only ever deletes carriage returns:
    with the carriage returns left out, the text before and the text after
    are the same, so every other character, each line feed included, is
    kept in its place; and the text never grows. *)
Theorem normalize_linefeeds_deletes_only_cr (s : string) :
  str_remove CR (_normalize_linefeeds s) = str_remove CR s
  /\ String.length (_normalize_linefeeds s) <= String.length s.
Proof.
  split.
  - apply (normalize_linefeeds_keeps_others_aux (String.length s)). lia.
  - apply (normalize_linefeeds_length_aux (String.length s) s). lia.
Qed.

(** ** The reader *)

Section ReaderFacts.

Variable re_search : string -> string -> Z -> option bool.

Lemma existsb_same_elements {A} (f : A -> bool) (l l' : list A) :
  (forall x, In x l <-> In x l') -> existsb f l = existsb f l'.
Proof.
  intros H. destruct (existsb f l) eqn:E; symmetry.
  - apply existsb_exists in E as [x [Hin Hx]]. apply existsb_exists.
    exists x. split; [now apply H | exact Hx].
  - destruct (existsb f l') eqn:E'; [|reflexivity].
    apply existsb_exists in E' as [x [Hin Hx]].
    assert (Ht : existsb f l = true)
      by (apply existsb_exists; exists x; split; [now apply H | exact Hx]).
    congruence.
Qed.

Lemma search_any_strings (ps : list string) (output : string) (fl : Z) :
  (forall p, In p ps -> re_search p output fl <> None) ->
  search_any re_search (map PyStr ps) output fl
  = Ok (existsb (fun p => match re_search p output fl with
                          | Some true => true
                          | _ => false
                          end) ps).
Proof.
  induction ps as [|p ps IH]; intros H; [reflexivity|].
  cbn [map search_any py_re_search existsb].
  pose proof (H p (or_introl eq_refl)) as Hp.
  destruct (re_search p output fl) as [[|]|]; [reflexivity | | contradiction].
  apply IH. intros q Hq. apply H. now right.
Qed.

(** X7. The patterns of a list are alternatives.  When each is a string
    the matcher answers on, the buffer is taken as matched exactly when
    one of them is found, whatever the order and the repetitions of the
    list; and once a pattern is found the ones behind it are not tried, so
    that a bad one among them goes unnoticed. *)
Theorem search_any_disjunctive (ps : list string) (output : string) (fl : Z) :
  (forall p, In p ps -> re_search p output fl <> None) ->
  search_any re_search (map PyStr ps) output fl
  = Ok (existsb (fun p => match re_search p output fl with
                          | Some true => true
                          | _ => false
                          end) ps)
  /\ (forall ps', (forall p, In p ps <-> In p ps') ->
        search_any re_search (map PyStr ps') output fl
        = search_any re_search (map PyStr ps) output fl)
  /\ (forall p behind, re_search p output fl = Some true ->
        search_any re_search (PyStr p :: behind) output fl = Ok true).
Proof.
  intros H. split; [now apply search_any_strings|]. split.
  - intros ps' Hsame. rewrite !search_any_strings; try assumption.
    + f_equal. apply existsb_same_elements. intros p. symmetry. apply Hsame.
    + intros p Hp. apply H. now apply Hsame.
  - intros p behind Hp. cbn [search_any py_re_search]. now rewrite Hp.
Qed.

Lemma read_loop_first_match (pl : list pyval) (fl : Z) (taken : list string) :
  forall output rest tr,
    taken <> [] ->
    search_any re_search pl (fold_left String.append taken output) fl = Ok true ->
    (forall n, 0 < n < List.length taken ->
       search_any re_search pl (fold_left String.append (firstn n taken) output) fl
       = Ok false) ->
    read_loop re_search pl fl output (taken ++ rest) tr
    = (Ok (_normalize_linefeeds (fold_left String.append taken output)),
       mkIO rest (tr ++ map EvRead taken)).
Proof.
  induction taken as [|x taken IH]; intros output rest tr Hne Hm Hpre; [contradiction|].
  cbn [app read_loop]. destruct taken as [|y taken].
  - cbn [fold_left] in Hm. rewrite Hm. reflexivity.
  - pose proof (Hpre 1 ltac:(cbn; lia)) as H1. cbn [firstn fold_left] in H1. rewrite H1.
    rewrite (IH (output ++ x) rest (tr ++ [EvRead x])%list).
    + cbn [fold_left map]. rewrite <- app_assoc. reflexivity.
    + discriminate.
    + exact Hm.
    + intros n Hn. apply (Hpre (S n)). cbn [List.length] in *. lia.
Qed.

Lemma read_loop_no_match (pl : list pyval) (fl : Z) (chunks : list string) :
  forall output tr,
    (forall n, 0 < n <= List.length chunks ->
       search_any re_search pl (fold_left String.append (firstn n chunks) output) fl
       = Ok false) ->
    read_loop re_search pl fl output chunks tr = (Blocked, mkIO [] (tr ++ map EvRead chunks)).
Proof.
  induction chunks as [|x chunks IH]; intros output tr H; cbn [read_loop map].
  - now rewrite app_nil_r.
  - pose proof (H 1 ltac:(cbn; lia)) as H1. cbn [firstn fold_left] in H1. rewrite H1.
    rewrite IH.
    + rewrite <- app_assoc. reflexivity.
    + intros n Hn. apply (H (S n)). cbn [List.length]. lia.
Qed.

(** X8. [_read_until] returns as soon as it can: when the chunks the
    transport holds begin with a run that ends on the first match, exactly
    that run is read, the buffer is returned with its line endings
    normalized, and the chunks behind the run stay on the transport. *)
Theorem read_until_returns_on_first_match
    (pl : list pyval) (fl : Z) (taken rest : list string) (self : DeviceStream) :
  incoming (_io_connection self) = (taken ++ rest)%list ->
  first_match_at_end re_search pl fl taken ->
  _read_until re_search pl fl self
  = (Ok (_normalize_linefeeds (buffer_of taken)),
     with_io (mkIO rest (trace (_io_connection self) ++ map EvRead taken)) self).
Proof.
  intros Hin (Hne & Hm & Hpre). unfold _read_until. rewrite Hin.
  now rewrite (read_loop_first_match pl fl taken "" rest _ Hne Hm Hpre).
Qed.

(** X9. [_read_until] has no other way out: when no pattern is found in
    the buffer after any of the chunks the transport holds, every chunk is
    read and the call then waits for a read that does not come; on a
    transport that holds nothing it waits at once. *)
Theorem read_until_blocks_without_match (pl : list pyval) (fl : Z) (self : DeviceStream) :
  (forall n, 0 < n <= List.length (incoming (_io_connection self)) ->
     search_any re_search pl (buffer_of (firstn n (incoming (_io_connection self)))) fl
     = Ok false) ->
  _read_until re_search pl fl self
  = (Blocked,
     with_io (mkIO [] (trace (_io_connection self)
                         ++ map EvRead (incoming (_io_connection self)))) self).
Proof.
  intros H. unfold _read_until. now rewrite (read_loop_no_match pl fl _ "" _ H).
Qed.

End ReaderFacts.

(** ** The command loop *)

Section DispatchFacts.

Variable re_search : string -> string -> Z -> option bool.

(** One turn of the loop of [send_commands] on a string. *)
Lemma send_loop_cons_str (pl : list pyval) (fl : Z) (sc sp : bool)
    (c : string) (rest : list pyval) (out : string) (self : DeviceStream) :
  send_loop re_search pl fl sc sp (PyStr c :: rest) out self
  = match read_loop re_search pl fl "" (incoming (_io_connection self))
            (trace (_io_connection self) ++ [EvSend (_normalize_cmd c)]) with
    | (Ok buf, io') =>
        send_loop re_search pl fl sc sp rest (out ++ sanitize sc sp c buf) (with_io io' self)
    | (Raise e, io') => (Raise e, with_io io' self)
    | (Blocked, io') => (Blocked, with_io io' self)
    end.
Proof.
  cbn [send_loop]. unfold bind at 1. cbn [_send]. unfold bind, _read_until.
  cbn [with_io _io_connection io_log incoming trace].
  destruct (read_loop re_search pl fl "" (incoming (_io_connection self))
              (trace (_io_connection self) ++ [EvSend (_normalize_cmd c)]))
    as [[buf|e|] io']; reflexivity.
Qed.

(** A command that is no string stops the loop before anything is written. *)
Lemma send_loop_cons_other (pl : list pyval) (fl : Z) (sc sp : bool)
    (cmd : pyval) (rest : list pyval) (out : string) (self : DeviceStream) :
  isinstance_str cmd = false ->
  send_loop re_search pl fl sc sp (cmd :: rest) out self = (Raise AttributeError, self).
Proof. destruct cmd; intros H; try discriminate H; reflexivity. Qed.

Lemma send_loop_app (pl : list pyval) (fl : Z) (sc sp : bool) (l1 l2 : list pyval) :
  forall out self,
    send_loop re_search pl fl sc sp (l1 ++ l2) out self
    = match send_loop re_search pl fl sc sp l1 out self with
      | (Ok o1, s1) => send_loop re_search pl fl sc sp l2 o1 s1
      | (Raise e, s1) => (Raise e, s1)
      | (Blocked, s1) => (Blocked, s1)
      end.
Proof.
  induction l1 as [|cmd l1 IH]; intros out self; [reflexivity|].
  cbn [app]. destruct (isinstance_str cmd) eqn:Hc.
  - destruct cmd; try discriminate Hc. rewrite !send_loop_cons_str.
    destruct (read_loop re_search pl fl "" (incoming (_io_connection self))
                (trace (_io_connection self) ++ [EvSend (_normalize_cmd s)]))
      as [[buf|e|] io']; [apply IH | reflexivity | reflexivity].
  - now rewrite !send_loop_cons_other.
Qed.

(** The text gathered before the loop starts is only prepended to. *)
Lemma send_loop_prepend (pl : list pyval) (fl : Z) (sc sp : bool) (l : list pyval) :
  forall out self,
    send_loop re_search pl fl sc sp l out self
    = match send_loop re_search pl fl sc sp l "" self with
      | (Ok o, s1) => (Ok (out ++ o), s1)
      | (Raise e, s1) => (Raise e, s1)
      | (Blocked, s1) => (Blocked, s1)
      end.
Proof.
  induction l as [|cmd l IH]; intros out self.
  - cbn. unfold ret. now rewrite str_append_nil_r.
  - destruct (isinstance_str cmd) eqn:Hc.
    + destruct cmd; try discriminate Hc. rewrite !send_loop_cons_str.
      destruct (read_loop re_search pl fl "" (incoming (_io_connection self))
                  (trace (_io_connection self) ++ [EvSend (_normalize_cmd s)]))
        as [[buf|e|] io']; [|reflexivity|reflexivity].
      rewrite (IH (out ++ sanitize sc sp s buf)), (IH ("" ++ sanitize sc sp s buf)).
      destruct (send_loop re_search pl fl sc sp l "" (with_io io' self)) as [[o|e|] s1];
        [|reflexivity|reflexivity].
      cbn [String.append]. now rewrite str_append_assoc.
    + now rewrite !send_loop_cons_other.
Qed.

Lemma dispatch_list (pl : list pyval) (l : list pyval) (sc sp : bool) (fl : Z)
    (self : DeviceStream) :
  dispatch re_search pl (PyList l) sc sp fl self = send_loop re_search pl fl sc sp l "" self.
Proof. reflexivity. Qed.

Lemma send_loop_runs (pl : list pyval) (fl : Z) (sc sp : bool) (cmds : list string) :
  forall exchanges out self rest,
    List.length exchanges = List.length cmds ->
    Forall (first_match_at_end re_search pl fl) exchanges ->
    incoming (_io_connection self) = (concat exchanges ++ rest)%list ->
    send_loop re_search pl fl sc sp (map PyStr cmds) out self
    = (Ok (out ++ session_output sc sp cmds exchanges),
       with_io (mkIO rest (trace (_io_connection self) ++ session_events cmds exchanges))
         self).
Proof.
  induction cmds as [|c cmds IH]; intros exchanges out self rest Hlen Hall Hin.
  - destruct exchanges; [|discriminate]. cbn in Hin. cbn. unfold ret.
    rewrite str_append_nil_r, app_nil_r, <- Hin. now destruct self as [[inc tr] f p n].
  - destruct exchanges as [|x xs]; [discriminate|].
    cbn [map]. rewrite send_loop_cons_str.
    apply Forall_cons_iff in Hall as [(Hne & Hm & Hpre) Hall].
    cbn [concat] in Hin. rewrite <- app_assoc in Hin. rewrite Hin.
    rewrite (read_loop_first_match re_search pl fl x "" _ _ Hne Hm Hpre).
    rewrite (IH xs _ (with_io _ self) rest); [| cbn in Hlen; lia | exact Hall | reflexivity].
    cbn [session_output session_events exchange_events].
    rewrite str_append_assoc. f_equal. unfold with_io.
    cbn [_io_connection _set_prompt_func _prompt_pattern _nopage_cmd trace].
    f_equal. f_equal. rewrite <- !app_assoc. reflexivity.
Qed.

End DispatchFacts.

(** ** [send_commands] and [connect] *)

Section CallFacts.

Variable re_search : string -> string -> Z -> option bool.

(** X10. Enough input gives the result.  When the chunks on the transport
    begin with one run per command, each ending on its first match,
    [send_commands] returns: its value is the sanitized buffers of the
    commands one after the other, its trace the exchanges in order, and the
    chunks behind the runs are left on the transport. *)
Theorem send_commands_runs_exchanges
    (cmds : list string) (sc sp : bool) (patterns : pyval) (fl : Z) (self : DeviceStream)
    (pl : list pyval) (exchanges : list (list string)) (rest : list string) :
  pattern_list_of patterns (_prompt_pattern self) = Ok pl ->
  List.length exchanges = List.length cmds ->
  Forall (first_match_at_end re_search pl fl) exchanges ->
  incoming (_io_connection self) = (concat exchanges ++ rest)%list ->
  send_commands re_search (PyList (map PyStr cmds)) sc sp patterns fl self
  = (Ok (session_output sc sp cmds exchanges),
     with_io (mkIO rest (trace (_io_connection self) ++ session_events cmds exchanges)) self).
Proof.
  intros Hpl Hlen Hall Hin. rewrite send_commands_eq, Hpl, dispatch_list.
  now rewrite (send_loop_runs re_search pl fl sc sp cmds exchanges "" self rest Hlen Hall Hin).
Qed.

(** X12. One call on a list is the calls on its parts: sending the
    commands of two lists in one call does what sending the first list and,
    if that returns, the second list does, and returns the two results
    joined. *)
Theorem send_commands_append
    (l1 l2 : list pyval) (sc sp : bool) (patterns : pyval) (fl : Z) (self : DeviceStream) :
  send_commands re_search (PyList (l1 ++ l2)) sc sp patterns fl self
  = match send_commands re_search (PyList l1) sc sp patterns fl self with
    | (Ok o1, s1) =>
        match send_commands re_search (PyList l2) sc sp patterns fl s1 with
        | (Ok o2, s2) => (Ok (o1 ++ o2), s2)
        | (Raise e, s2) => (Raise e, s2)
        | (Blocked, s2) => (Blocked, s2)
        end
    | (Raise e, s1) => (Raise e, s1)
    | (Blocked, s1) => (Blocked, s1)
    end.
Proof.
  rewrite !send_commands_eq.
  destruct (pattern_list_of patterns (_prompt_pattern self)) as [pl|e|] eqn:Hpl;
    [|reflexivity|reflexivity].
  rewrite !dispatch_list, send_loop_app.
  pose proof (send_loop_config re_search pl fl sc sp l1 "" self) as (Hp & _ & _).
  destruct (send_loop re_search pl fl sc sp l1 "" self) as [[o1|e|] s1];
    [|reflexivity|reflexivity].
  cbn [snd] in Hp. rewrite send_commands_eq, Hp, Hpl, dispatch_list.
  apply send_loop_prepend.
Qed.

(** X13. A command that is no string is met only when its turn comes: the
    commands before it are sent and read as in a call of their own, and if
    that call returns, [AttributeError] is raised with nothing written for
    the bad command or for any command behind it. *)
Theorem send_commands_bad_command
    (cmds : list string) (bad : pyval) (behind : list pyval)
    (sc sp : bool) (patterns : pyval) (fl : Z) (self : DeviceStream) :
  isinstance_str bad = false ->
  send_commands re_search (PyList (map PyStr cmds ++ bad :: behind)) sc sp patterns fl self
  = match send_commands re_search (PyList (map PyStr cmds)) sc sp patterns fl self with
    | (Ok _, s1) => (Raise AttributeError, s1)
    | (Raise e, s1) => (Raise e, s1)
    | (Blocked, s1) => (Blocked, s1)
    end.
Proof.
  intros Hbad. rewrite !send_commands_eq.
  destruct (pattern_list_of patterns (_prompt_pattern self)) as [pl|e|];
    [|reflexivity|reflexivity].
  rewrite !dispatch_list, send_loop_app.
  destruct (send_loop re_search pl fl sc sp (map PyStr cmds) "" self) as [[o1|e|] s1];
    [|reflexivity|reflexivity].
  now apply send_loop_cons_other.
Qed.

(** X14. With nothing to send nothing is done: on an empty list or tuple
    [send_commands] returns the empty string, and on [None], a number or a
    truth value it raises [TypeError], in each case without a write or a
    read and with the stream as it was; a single string is sent as the list
    of that one string. *)
Theorem send_commands_without_commands
    (sc sp : bool) (patterns : pyval) (fl : Z) (self : DeviceStream) :
  patterns_rejected patterns = false ->
  send_commands re_search (PyList []) sc sp patterns fl self = (Ok "", self)
  /\ send_commands re_search (PyTuple []) sc sp patterns fl self = (Ok "", self)
  /\ send_commands re_search PyNone sc sp patterns fl self = (Raise TypeError, self)
  /\ (forall n, send_commands re_search (PyInt n) sc sp patterns fl self
                = (Raise TypeError, self))
  /\ (forall b, send_commands re_search (PyBool b) sc sp patterns fl self
                = (Raise TypeError, self))
  /\ (forall c, send_commands re_search (PyStr c) sc sp patterns fl self
                = send_commands re_search (PyList [PyStr c]) sc sp patterns fl self).
Proof.
  intros H. destruct (pattern_list_of_accepted patterns (_prompt_pattern self) H) as [pl Hpl].
  repeat split; intros; rewrite !send_commands_eq, Hpl; reflexivity.
Qed.

End CallFacts.

Section ConnectFacts.

Variable re_search : string -> string -> Z -> option bool.

Lemma dispatch_str (pl : list pyval) (c : string) (sc sp : bool) (fl : Z)
    (self : DeviceStream) :
  dispatch re_search pl (PyStr c) sc sp fl self
  = send_loop re_search pl fl sc sp [PyStr c] "" self.
Proof. reflexivity. Qed.

Lemma send_commands_single_runs
    (c : string) (sc sp : bool) (patterns : pyval) (fl : Z) (self : DeviceStream)
    (pl : list pyval) (x rest : list string) :
  pattern_list_of patterns (_prompt_pattern self) = Ok pl ->
  first_match_at_end re_search pl fl x ->
  incoming (_io_connection self) = (x ++ rest)%list ->
  send_commands re_search (PyStr c) sc sp patterns fl self
  = (Ok (sanitize sc sp c (_normalize_linefeeds (buffer_of x))),
     with_io (mkIO rest (trace (_io_connection self) ++ exchange_events c x)) self).
Proof.
  intros Hpl Hx Hin. rewrite send_commands_eq, Hpl.
  change (dispatch re_search pl (PyStr c) sc sp fl self)
    with (send_loop re_search pl fl sc sp (map PyStr [c]) "" self).
  rewrite (send_loop_runs re_search pl fl sc sp [c] [x] "" self rest).
  - cbn [session_output session_events String.append].
    now rewrite str_append_nil_r, app_nil_r.
  - reflexivity.
  - now constructor.
  - cbn [concat]. now rewrite app_nil_r.
Qed.

(** X15. [connect] on a device that shows its prompt.  When the transport
    first holds a run of chunks that ends on the first match of the
    two-line pattern, and then a run that ends on the first match of the
    pattern the prompt setter makes of the first, [connect] returns: it
    opens the transport, writes a bare newline, reads the first run, writes
    the pagination command, reads the second run, and returns the first
    buffer followed by the sanitized second one; the stream keeps the
    learned pattern. *)
Theorem connect_learns_and_prepares
    (self : DeviceStream) (c : string) (probe prep rest : list string) :
  let raw := _normalize_linefeeds (buffer_of probe) in
  let learned := _set_prompt_func self raw in
  _nopage_cmd self = Some c ->
  incoming (_io_connection self) = (probe ++ prep ++ rest)%list ->
  first_match_at_end re_search [PyStr (two_line_pattern (_prompt_pattern self))]
    (Z.lor re_MULTILINE re_DOTALL) probe ->
  first_match_at_end re_search [PyStr learned] 0 prep ->
  connect re_search self
  = (Ok (raw ++ sanitize true true c (_normalize_linefeeds (buffer_of prep))),
     mkDeviceStream
       (mkIO rest (trace (_io_connection self)
                     ++ EvConnect :: exchange_events nl probe ++ exchange_events c prep))
       (_set_prompt_func self) learned (Some c)).
Proof.
  intros raw learned Hn Hin Hprobe Hprep.
  unfold connect. unfold bind at 1. cbn [io_call]. unfold bind at 1.
  rewrite find_prompt_eq.
  rewrite (send_commands_single_runs nl false false PyNone (Z.lor re_MULTILINE re_DOTALL)
             _ [PyStr (two_line_pattern (_prompt_pattern self))] probe (prep ++ rest));
    [| reflexivity | exact Hprobe | exact Hin].
  cbn [sanitize with_io with_pattern io_log _io_connection _set_prompt_func
       _prompt_pattern _nopage_cmd trace incoming].
  fold raw. fold learned.
  unfold bind, _session_preparation, bind.
  cbn [_nopage_cmd with_pattern with_io]. rewrite Hn. cbn [pyval_of_opt].
  rewrite (send_commands_single_runs c true true PyNone 0 _ [PyStr learned] prep rest);
    [| reflexivity | exact Hprep | reflexivity].
  unfold ret, with_io, with_pattern, io_log.
  cbn [sanitize _io_connection _set_prompt_func _prompt_pattern _nopage_cmd trace incoming].
  rewrite Hn. f_equal. f_equal. f_equal.
  unfold exchange_events. rewrite <- !app_assoc. reflexivity.
Qed.

(** X16. [connect] on a device that never shows its prompt.  When the
    two-line pattern is found after none of the chunks the transport
    holds, [connect] never returns: the transport is opened, a bare newline
    written and every chunk read; the pattern is left at the two-line
    variant and the pagination command is never written. *)
Theorem connect_blocks_without_prompt (self : DeviceStream) :
  (forall n, 0 < n <= List.length (incoming (_io_connection self)) ->
     search_any re_search [PyStr (two_line_pattern (_prompt_pattern self))]
       (buffer_of (firstn n (incoming (_io_connection self))))
       (Z.lor re_MULTILINE re_DOTALL) = Ok false) ->
  connect re_search self
  = (Blocked,
     mkDeviceStream
       (mkIO [] (trace (_io_connection self)
                   ++ EvConnect :: EvSend nl :: map EvRead (incoming (_io_connection self))))
       (_set_prompt_func self) (two_line_pattern (_prompt_pattern self)) (_nopage_cmd self)).
Proof.
  intros H. unfold connect. unfold bind at 1. cbn [io_call]. unfold bind at 1.
  rewrite find_prompt_eq, send_commands_eq.
  cbn [with_io with_pattern _prompt_pattern pattern_list_of truthy negb].
  rewrite dispatch_str, send_loop_cons_str.
  unfold with_io, with_pattern, io_log.
  cbn [_io_connection _set_prompt_func _prompt_pattern _nopage_cmd incoming trace].
  rewrite (read_loop_no_match re_search _ _ _ "" _ H).
  f_equal. f_equal. f_equal. rewrite <- !app_assoc. reflexivity.
Qed.

End ConnectFacts.

(** ** The further properties on the sample sessions *)

Lemma search_any_disjunctive_witness :
  search_any re_search_model (map PyStr ["More"; "host\#"]) ("10.0.0.1" ++ nl ++ "host#") 0
  = search_any re_search_model (map PyStr ["host\#"; "More"; "host\#"])
      ("10.0.0.1" ++ nl ++ "host#") 0.
Proof.
  destruct (search_any_disjunctive re_search_model ["host\#"; "More"; "host\#"]
              ("10.0.0.1" ++ nl ++ "host#") 0) as (_ & H & _).
  - intros p [<- | [<- | [<- | []]]]; vm_compute; discriminate.
  - apply (H ["More"; "host\#"]). intros p. cbn. tauto.
Defined.

Lemma sample_first_exchange :
  first_match_at_end re_search_model [PyStr "host\#"] 0
    ["show ip" ++ nl ++ "10.0.0.1" ++ String CR nl; "host#"].
Proof.
  split; [discriminate|]. split; [vm_compute; reflexivity|].
  intros [|[|n]] Hn; cbn [List.length] in Hn; try lia. vm_compute. reflexivity.
Qed.

Lemma sample_second_exchange :
  first_match_at_end re_search_model [PyStr "host\#"] 0
    ["show run" ++ nl ++ "hostname host" ++ nl ++ "host#"].
Proof.
  split; [discriminate|]. split; [vm_compute; reflexivity|].
  intros n Hn. cbn [List.length] in Hn. lia.
Qed.

Lemma read_until_returns_on_first_match_witness :
  _read_until re_search_model [PyStr "host\#"] 0 sample_ready
  = (Ok ("show ip" ++ nl ++ "10.0.0.1" ++ nl ++ "host#"),
     with_io (mkIO ["show run" ++ nl ++ "hostname host" ++ nl ++ "host#"]
                (trace (_io_connection sample_ready)
                   ++ map EvRead ["show ip" ++ nl ++ "10.0.0.1" ++ String CR nl; "host#"]))
       sample_ready).
Proof.
  apply (read_until_returns_on_first_match re_search_model [PyStr "host\#"] 0
           ["show ip" ++ nl ++ "10.0.0.1" ++ String CR nl; "host#"]
           ["show run" ++ nl ++ "hostname host" ++ nl ++ "host#"] sample_ready).
  - vm_compute. reflexivity.
  - exact sample_first_exchange.
Defined.

Lemma sample_silent_no_match (p : string) (fl : Z) :
  re_search_model p "login: " fl = Some false ->
  re_search_model p "login: password: " fl = Some false ->
  forall n, 0 < n <= List.length ["login: "; "password: "] ->
    search_any re_search_model [PyStr p] (buffer_of (firstn n ["login: "; "password: "])) fl
    = Ok false.
Proof.
  intros H1 H2 [|[|[|n]]] Hn; cbn [List.length] in Hn; try lia;
    cbn [firstn buffer_of fold_left search_any py_re_search String.append].
  - now rewrite H1.
  - change ("login: " ++ "password: ") with "login: password: ". now rewrite H2.
Qed.

Lemma read_until_blocks_without_match_witness :
  _read_until re_search_model [PyStr "\#"] 0 sample_silent_stream
  = (Blocked,
     with_io (mkIO [] (trace (_io_connection sample_silent_stream)
                         ++ map EvRead ["login: "; "password: "]))
       sample_silent_stream).
Proof.
  apply (read_until_blocks_without_match re_search_model [PyStr "\#"] 0 sample_silent_stream).
  apply sample_silent_no_match; vm_compute; reflexivity.
Defined.

Lemma send_commands_runs_exchanges_witness :
  send_commands re_search_model (PyList (map PyStr ["show ip"; "show run"])) true true
    PyNone 0 sample_ready
  = (Ok ((nl ++ "10.0.0.1") ++ nl ++ "hostname host"),
     with_io (mkIO []
                (trace (_io_connection sample_ready)
                   ++ session_events ["show ip"; "show run"]
                        [["show ip" ++ nl ++ "10.0.0.1" ++ String CR nl; "host#"];
                         ["show run" ++ nl ++ "hostname host" ++ nl ++ "host#"]]))
       sample_ready).
Proof.
  apply (send_commands_runs_exchanges re_search_model ["show ip"; "show run"] true true
           PyNone 0 sample_ready [PyStr "host\#"]
           [["show ip" ++ nl ++ "10.0.0.1" ++ String CR nl; "host#"];
            ["show run" ++ nl ++ "hostname host" ++ nl ++ "host#"]] []).
  - vm_compute. reflexivity.
  - reflexivity.
  - constructor; [apply sample_first_exchange|].
    constructor; [apply sample_second_exchange | constructor].
  - vm_compute. reflexivity.
Defined.

Lemma send_commands_bad_command_witness :
  send_commands re_search_model (PyList (map PyStr ["show ip"] ++ [PyNone; PyStr "show run"]))
    true true PyNone 0 sample_ready
  = match send_commands re_search_model (PyList (map PyStr ["show ip"])) true true PyNone 0
            sample_ready with
    | (Ok _, s1) => (Raise AttributeError, s1)
    | (Raise e, s1) => (Raise e, s1)
    | (Blocked, s1) => (Blocked, s1)
    end.
Proof.
  apply (send_commands_bad_command re_search_model ["show ip"] PyNone [PyStr "show run"]).
  reflexivity.
Defined.

Lemma send_commands_without_commands_witness :
  send_commands re_search_model (PyList []) true true (PyStr "More") 0 sample_ready
  = (Ok "", sample_ready)
  /\ send_commands re_search_model PyNone true true (PyStr "More") 0 sample_ready
     = (Raise TypeError, sample_ready).
Proof.
  destruct (send_commands_without_commands re_search_model true true (PyStr "More") 0
              sample_ready eq_refl) as (H1 & _ & H2 & _).
  split; [exact H1 | exact H2].
Defined.

Lemma connect_learns_and_prepares_witness :
  connect re_search_model sample_paged_stream
  = (Ok (("host#" ++ nl ++ "host#") ++ ""),
     mkDeviceStream
       (mkIO ["late"]
          ([] ++ EvConnect :: exchange_events nl ["host#" ++ nl; "host#"]
              ++ exchange_events "terminal length 0" ["terminal length 0" ++ nl ++ "host#"]))
       sample_set_prompt "host\#" (Some "terminal length 0")).
Proof.
  apply (connect_learns_and_prepares re_search_model sample_paged_stream "terminal length 0"
           ["host#" ++ nl; "host#"] ["terminal length 0" ++ nl ++ "host#"] ["late"]).
  - reflexivity.
  - reflexivity.
  - split; [discriminate|]. split; [vm_compute; reflexivity|].
    intros [|[|n]] Hn; cbn [List.length] in Hn; try lia. vm_compute. reflexivity.
  - split; [discriminate|]. split; [vm_compute; reflexivity|].
    intros n Hn. cbn [List.length] in Hn. lia.
Defined.

Lemma connect_blocks_without_prompt_witness :
  connect re_search_model sample_silent_stream
  = (Blocked,
     mkDeviceStream
       (mkIO [] ([] ++ EvConnect :: EvSend nl :: map EvRead ["login: "; "password: "]))
       sample_set_prompt (two_line_pattern "\#") None).
Proof.
  apply (connect_blocks_without_prompt re_search_model sample_silent_stream).
  apply sample_silent_no_match; vm_compute; reflexivity.
Defined.

(** ** The patterns of [__init__] and [_find_prompt] under the model *)

(** X17. Neither the order of the delimiters nor a delimiter given twice
    matters: two non-empty delimiter lists with the same members give
    patterns that are found in the same texts. *)
Theorem bootstrap_pattern_order_irrelevant
    (io : IOConnection) (f : string -> string) (nopage : option string)
    (ds ds' : list string) (self self' : DeviceStream) (text : string) (fl : Z) :
  ds <> [] -> ds' <> [] -> (forall d, In d ds <-> In d ds') ->
  flags_modelled fl = true ->
  __init__ (Some io) ds (Some f) nopage = Ok self ->
  __init__ (Some io) ds' (Some f) nopage = Ok self' ->
  re_search_model (_prompt_pattern self) text fl
  = re_search_model (_prompt_pattern self') text fl.
Proof.
  intros Hne Hne' Hsame Hfl H H'. injection H as <-. injection H' as <-.
  cbn [_prompt_pattern]. rewrite !bootstrap_pattern_search by assumption.
  f_equal. now apply existsb_same_elements.
Qed.

Lemma bootstrap_pattern_order_irrelevant_witness :
  re_search_model "\#|>" ("host>" ++ nl) 0 = re_search_model ">|\#|>" ("host>" ++ nl) 0.
Proof.
  apply (bootstrap_pattern_order_irrelevant sample_io sample_set_prompt None
           ["#"; ">"] [">"; "#"; ">"]
           (mkDeviceStream sample_io sample_set_prompt "\#|>" None)
           (mkDeviceStream sample_io sample_set_prompt ">|\#|>" None));
    try discriminate; try reflexivity.
  intros d. cbn. tauto.
Defined.

Lemma tokenize_alternation_app (ds : list string) (rest : string) :
  tokenize (str_join "|" (map re_escape ds) ++ rest)
  = option_map (app (alt_tokens ds)) (tokenize rest).
Proof.
  induction ds as [|d ds IH].
  - cbn. now destruct (tokenize rest).
  - destruct ds as [|d' ds].
    + cbn [map str_join String.concat alt_tokens]. apply tokenize_escape.
    + cbn [map] in *. rewrite str_join_cons, !str_append_assoc, tokenize_escape.
      change (tokenize ("|" ++ str_join "|" (re_escape d' :: map re_escape ds) ++ rest))
        with (option_map (cons TBar)
                (tokenize (str_join "|" (re_escape d' :: map re_escape ds) ++ rest))).
      rewrite IH. destruct (tokenize rest) as [ts|]; [|reflexivity].
      cbn [option_map]. f_equal.
      change (alt_tokens (d :: d' :: ds))
        with (lit_tokens d ++ TBar :: alt_tokens (d' :: ds))%list.
      now rewrite <- app_assoc.
Qed.

Lemma tokenize_two_line_middle (rest : string) :
  tokenize (").*$.*(" ++ rest)
  = option_map (app [TClose; TDot; TStar; TEol; TDot; TStar; TOpen]) (tokenize rest).
Proof.
  change (tokenize (").*$.*(" ++ rest))
    with (option_map (cons TClose) (option_map (cons TDot) (option_map (cons TStar)
           (option_map (cons TEol) (option_map (cons TDot) (option_map (cons TStar)
             (option_map (cons TOpen) (tokenize rest)))))))).
  now destruct (tokenize rest).
Qed.

Lemma tokenize_two_line (ds : list string) :
  tokenize (two_line_pattern (str_join "|" (map re_escape ds)))
  = Some (TOpen :: alt_tokens ds
            ++ [TClose; TDot; TStar; TEol; TDot; TStar; TOpen]
            ++ alt_tokens ds ++ [TClose; TEol])%list.
Proof.
  unfold two_line_pattern.
  change (tokenize ("(" ++ str_join "|" (map re_escape ds) ++ ").*$.*("
                      ++ str_join "|" (map re_escape ds) ++ ")$"))
    with (option_map (cons TOpen)
            (tokenize (str_join "|" (map re_escape ds) ++ ").*$.*("
                         ++ str_join "|" (map re_escape ds) ++ ")$"))).
  rewrite tokenize_alternation_app, tokenize_two_line_middle, tokenize_alternation_app.
  reflexivity.
Qed.

Lemma parse_alternation_frame (ds : list string) : forall alts ts stack,
  parse_tokens (alt_tokens ds ++ ts) (alts, []) stack
  = parse_tokens ts (frame_after alts ds) stack.
Proof.
  induction ds as [|d ds IH]; intros alts ts stack; [reflexivity|].
  destruct ds as [|d' ds].
  - cbn [alt_tokens frame_after]. now rewrite parse_literal, app_nil_r.
  - change (alt_tokens (d :: d' :: ds))
      with (lit_tokens d ++ TBar :: alt_tokens (d' :: ds))%list.
    rewrite <- app_assoc, parse_literal, app_nil_r.
    cbn [app parse_tokens fst snd]. rewrite mk_seq_literal. apply IH.
Qed.

Section TwoLine.

Variable multiline : bool.

Lemma in_ends_literal (dotall : bool) (d s t : string) :
  In t (ends multiline dotall (lit_regex d) s) <-> s = d ++ t.
Proof.
  rewrite ends_literal. destruct (str_prefix d s) eqn:Hp.
  - apply str_prefix_spec in Hp as [rest ->]. rewrite str_drop_app. cbn [In]. split.
    + intros [<- | []]. reflexivity.
    + intros H. left. revert H. clear. induction d as [|a d IH]; cbn; [auto|].
      intros H. injection H as H. auto.
  - cbn [In]. split; [contradiction|]. intros ->.
    assert (Ht : str_prefix d (d ++ t) = true) by (apply str_prefix_spec; now exists t).
    congruence.
Qed.

Lemma in_ends_mk_alt (dotall : bool) (alts : list regex) : forall last s t,
  In t (ends multiline dotall (mk_alt alts last) s)
  <-> (exists r, In r alts /\ In t (ends multiline dotall r s))
      \/ In t (ends multiline dotall last s).
Proof.
  unfold mk_alt. induction alts as [|a alts IH]; intros last s t; cbn [fold_left].
  - split; [now right | intros [[r [[] _]] | H]; exact H].
  - rewrite IH. cbn [ends]. rewrite in_app_iff. split.
    + intros [[r [Hr Ht]] | [Ha | Hl]].
      * left. exists r. split; [now right | exact Ht].
      * left. exists a. split; [now left | exact Ha].
      * now right.
    + intros [[r [[<- | Hr] Ht]] | Hl].
      * right. now left.
      * left. now exists r.
      * right. now right.
Qed.

Lemma in_ends_alternation (dotall : bool) (ds : list string) : forall alts s t,
  ds <> [] ->
  In t (ends multiline dotall (close_frame (frame_after alts ds)) s)
  <-> (exists r, In r alts /\ In t (ends multiline dotall r s))
      \/ (exists d, In d ds /\ s = d ++ t).
Proof.
  induction ds as [|d ds IH]; intros alts s t Hne; [contradiction|].
  destruct ds as [|d' ds].
  - cbn [frame_after]. unfold close_frame. cbn [fst snd].
    rewrite mk_seq_literal, in_ends_mk_alt, in_ends_literal. split.
    + intros [H | H]; [now left | right; exists d; split; [now left | exact H]].
    + intros [H | [d0 [[<- | []] H]]]; [now left | now right].
  - change (frame_after alts (d :: d' :: ds))
      with (frame_after (lit_regex d :: alts) (d' :: ds)).
    rewrite IH by discriminate. split.
    + intros [[r [[<- | Hr] Ht]] | [d0 [Hd Hs]]].
      * right. exists d. split; [now left | now apply in_ends_literal in Ht].
      * left. now exists r.
      * right. exists d0. split; [now right | exact Hs].
    + intros [[r [Hr Ht]] | [d0 [[<- | Hd] Hs]]].
      * left. exists r. split; [now right | exact Ht].
      * left. exists (lit_regex d). split; [now left | now apply in_ends_literal].
      * right. now exists d0.
Qed.

(** Under [re.DOTALL] the expression [.*] may stop anywhere. *)
Lemma in_iter_star_dot (n : nat) : forall s t,
  String.length s <= n ->
  (In t (iter_star (ends multiline true Dot) n s) <-> exists pre, s = pre ++ t).
Proof.
  induction n as [|n IH]; intros s t Hn.
  - destruct s; [|cbn in Hn; lia]. cbn [iter_star In]. split.
    + intros [<- | []]. now exists "".
    + intros [pre H]. left. destruct pre; [exact H | discriminate].
  - destruct s as [|a u].
    + cbn. split.
      * intros [<- | []]. now exists "".
      * intros [pre H]. left. destruct pre; [exact H | discriminate].
    + cbn [iter_star ends orb filter String.length].
      assert (Hlt : Nat.ltb (String.length u) (S (String.length u)) = true)
        by (apply Nat.ltb_lt; lia).
      rewrite Hlt. cbn [flat_map In]. rewrite app_nil_r.
      rewrite IH by (cbn in Hn; lia). split.
      * intros [<- | [pre ->]]; [now exists "" | now exists (String a pre)].
      * intros [pre H]. destruct pre as [|x pre]; [now left|].
        right. cbn in H. injection H as _ H. now exists pre.
Qed.

Lemma in_ends_seq (dotall : bool) (r1 r2 : regex) (s t : string) :
  In t (ends multiline dotall (Seq r1 r2) s)
  <-> exists u, In u (ends multiline dotall r1 s) /\ In t (ends multiline dotall r2 u).
Proof. cbn [ends]. apply in_flat_map. Qed.

Lemma in_ends_eol (dotall : bool) (s t : string) :
  In t (ends multiline dotall Eol s) <-> t = s /\ at_eol multiline s = true.
Proof.
  cbn [ends]. destruct (at_eol multiline s); cbn [In]; split.
  - intros [<- | []]. auto.
  - intros [-> _]. now left.
  - contradiction.
  - intros [_ H]. discriminate.
Qed.

Lemma matches_at_iff (dotall : bool) (r : regex) (s : string) :
  matches_at multiline dotall r s = true <-> exists t, In t (ends multiline dotall r s).
Proof.
  unfold matches_at. destruct (ends multiline dotall r s) as [|x l]; split.
  - discriminate.
  - intros [t []].
  - intros _. exists x. now left.
  - reflexivity.
Qed.

Lemma search_regex_iff (dotall : bool) (r : regex) (text : string) :
  search_regex multiline dotall r text = true
  <-> exists before s, text = before ++ s /\ matches_at multiline dotall r s = true.
Proof.
  induction text as [|a t IH]; cbn [search_regex].
  - rewrite orb_false_r. split.
    + intros H. now exists "", "".
    + intros [before [s [E H]]]. destruct before; [|discriminate]. cbn in E. now subst s.
  - rewrite orb_true_iff, IH. split.
    + intros [H | [before [s [-> H]]]].
      * now exists "", (String a t).
      * now exists (String a before), s.
    + intros [before [s [E H]]]. destruct before as [|x before].
      * left. cbn in E. now subst s.
      * right. cbn in E. injection E as _ E. now exists before, s.
Qed.

(** The expression the two-line pattern of an alternation parses to. *)
Lemma parse_two_line (ds : list string) :
  parse_tokens (TOpen :: alt_tokens ds
                  ++ [TClose; TDot; TStar; TEol; TDot; TStar; TOpen]
                  ++ alt_tokens ds ++ [TClose; TEol])%list ([], []) []
  = Some (Seq (Grp (close_frame (frame_after [] ds)))
            (Seq (Star Dot)
               (Seq Eol
                  (Seq (Star Dot)
                     (Seq (Grp (close_frame (frame_after [] ds))) (Seq Eol Eps)))))).
Proof.
  cbn [parse_tokens]. rewrite parse_alternation_frame.
  cbn [app parse_tokens fst snd repeatable]. rewrite parse_alternation_frame.
  reflexivity.
Qed.

Lemma two_line_matches_at (ds : list string) (s : string) :
  ds <> [] ->
  matches_at multiline true
    (Seq (Grp (close_frame (frame_after [] ds)))
       (Seq (Star Dot)
          (Seq Eol
             (Seq (Star Dot)
                (Seq (Grp (close_frame (frame_after [] ds))) (Seq Eol Eps)))))) s = true
  <-> exists d1 d2 m1 m2 e,
        In d1 ds /\ In d2 ds /\ s = d1 ++ m1 ++ m2 ++ d2 ++ e
        /\ at_eol multiline (m2 ++ d2 ++ e) = true /\ at_eol multiline e = true.
Proof.
  intros Hne. rewrite matches_at_iff. split.
  - intros [t H].
    apply in_ends_seq in H as (u1 & H1 & H).
    apply in_ends_seq in H as (u2 & H2 & H).
    apply in_ends_seq in H as (u3 & H3 & H).
    apply in_ends_seq in H as (u4 & H4 & H).
    apply in_ends_seq in H as (u5 & H5 & H).
    apply in_ends_seq in H as (u6 & H6 & H).
    cbn [ends] in H1, H5. 
    apply (in_ends_alternation true ds [] s u1 Hne) in H1 as [[r [[] _]] | [d1 [Hd1 E1]]].
    apply (in_ends_alternation true ds [] u4 u5 Hne) in H5 as [[r [[] _]] | [d2 [Hd2 E5]]].
    cbn [ends] in H2, H4.
    apply in_iter_star_dot in H2 as [m1 E2]; [|lia].
    apply in_iter_star_dot in H4 as [m2 E4]; [|lia].
    apply in_ends_eol in H3 as [-> Heol3]. apply in_ends_eol in H6 as [-> Heol6].
    exists d1, d2, m1, m2, u5. subst. repeat split; assumption.
  - intros (d1 & d2 & m1 & m2 & e & Hd1 & Hd2 & -> & Heol1 & Heol2).
    exists e.
    apply in_ends_seq. exists (m1 ++ m2 ++ d2 ++ e). split.
    { cbn [ends]. apply (in_ends_alternation true ds [] _ _ Hne). right. now exists d1. }
    apply in_ends_seq. exists (m2 ++ d2 ++ e). split.
    { cbn [ends]. apply in_iter_star_dot; [lia | now exists m1]. }
    apply in_ends_seq. exists (m2 ++ d2 ++ e). split.
    { now apply in_ends_eol. }
    apply in_ends_seq. exists (d2 ++ e). split.
    { cbn [ends]. apply in_iter_star_dot; [lia | now exists m2]. }
    apply in_ends_seq. exists e. split.
    { cbn [ends]. apply (in_ends_alternation true ds [] _ _ Hne). right. now exists d2. }
    apply in_ends_seq. exists e. split; [now apply in_ends_eol | now left].
Qed.

End TwoLine.

(** X18. When the probe of [_find_prompt] stops.  Under [re.MULTILINE]
    and [re.DOTALL] the two-line pattern built from a non-empty delimiter
    list is found in a buffer exactly when a delimiter is followed, at once
    or after any text, by the end of a line, and from there on, again at
    once or after any text, a delimiter stands at the end of a line.  The
    second line need not be the last of the buffer. *)
Theorem two_line_pattern_found
    (io : IOConnection) (f : string -> string) (nopage : option string)
    (delimeter_list : list string) (self : DeviceStream) (text : string) :
  delimeter_list <> [] ->
  __init__ (Some io) delimeter_list (Some f) nopage = Ok self ->
  exists found,
    re_search_model (two_line_pattern (_prompt_pattern self)) text
      (Z.lor re_MULTILINE re_DOTALL) = Some found
    /\ (found = true <->
        exists d1 d2 before m1 m2 rest,
          In d1 delimeter_list /\ In d2 delimeter_list
          /\ text = before ++ d1 ++ m1 ++ m2 ++ d2 ++ rest
          /\ at_eol true (m2 ++ d2 ++ rest) = true /\ at_eol true rest = true).
Proof.
  intros Hne Hinit. injection Hinit as <-. cbn [_prompt_pattern].
  unfold re_search_model, re_parse.
  change (flags_modelled (Z.lor re_MULTILINE re_DOTALL)) with true.
  change (Z.testbit (Z.lor re_MULTILINE re_DOTALL) 3) with true.
  change (Z.testbit (Z.lor re_MULTILINE re_DOTALL) 4) with true.
  cbv iota. rewrite tokenize_two_line, parse_two_line.
  eexists. split; [reflexivity|].
  rewrite search_regex_iff. split.
  - intros (before & s & -> & H).
    apply (two_line_matches_at true delimeter_list s Hne) in H
      as (d1 & d2 & m1 & m2 & e & Hd1 & Hd2 & -> & H1 & H2).
    now exists d1, d2, before, m1, m2, e.
  - intros (d1 & d2 & before & m1 & m2 & e & Hd1 & Hd2 & -> & H1 & H2).
    exists before, (d1 ++ m1 ++ m2 ++ d2 ++ e). split; [reflexivity|].
    apply (two_line_matches_at true delimeter_list _ Hne).
    now exists d1, d2, m1, m2, e.
Qed.

Lemma two_line_pattern_found_witness :
  exists found,
    re_search_model (two_line_pattern "\#|>") ("host#" ++ nl ++ "host#" ++ nl ++ "more")
      (Z.lor re_MULTILINE re_DOTALL) = Some found
    /\ (found = true <->
        exists d1 d2 before m1 m2 rest,
          In d1 ["#"; ">"] /\ In d2 ["#"; ">"]
          /\ "host#" ++ nl ++ "host#" ++ nl ++ "more"
             = before ++ d1 ++ m1 ++ m2 ++ d2 ++ rest
          /\ at_eol true (m2 ++ d2 ++ rest) = true /\ at_eol true rest = true).
Proof.
  apply (two_line_pattern_found sample_io sample_set_prompt None ["#"; ">"]
           (mkDeviceStream sample_io sample_set_prompt "\#|>" None)).
  - discriminate.
  - reflexivity.
Defined.

(** On the sample above the pattern is found although the buffer goes on
    after the second prompt line. *)
Example two_line_pattern_mid_buffer :
  re_search_model (two_line_pattern "\#|>") ("host#" ++ nl ++ "host#" ++ nl ++ "more")
    (Z.lor re_MULTILINE re_DOTALL) = Some true.
Proof. vm_compute. reflexivity. Qed.

(** ** The sanitizer on an echoed command *)

Lemma str_last_occurrence (c : ascii) (s : string) :
  str_contains c s = true ->
  exists body line, s = body ++ String c line /\ str_contains c line = false.
Proof.
  induction s as [|a t IH]; [discriminate|]. cbn [str_contains].
  destruct (str_contains c t) eqn:Ht.
  - intros _. destruct (IH eq_refl) as (body & line & -> & Hl).
    now exists (String a body), line.
  - rewrite orb_false_r. intros Ha. apply Ascii.eqb_eq in Ha. subst a.
    now exists "", t.
Qed.

Lemma strip_prompt_split_last (body line : string) :
  str_contains LF line = false -> _strip_prompt (body ++ nl ++ line) = body.
Proof.
  intros H. unfold _strip_prompt, all_but_last, nl. cbn [String.append].
  rewrite str_split_app, (str_split_no_sep _ _ H), removelast_last.
  apply str_join_split.
Qed.

(** X19. [_strip_prompt] in full: every output ends in a line that holds
    no newline; either that line is the whole output and the result is
    empty, or the result is what stands before the newline in front of
    that line.  The result is always a prefix of the output. *)
Theorem strip_prompt_cases (output : string) :
  exists line,
    str_contains LF line = false
    /\ ((output = line /\ _strip_prompt output = "")
        \/ output = _strip_prompt output ++ nl ++ line).
Proof.
  destruct (str_contains LF output) eqn:H.
  - destruct (str_last_occurrence _ _ H) as (body & line & -> & Hl).
    exists line. split; [exact Hl|]. right.
    change (body ++ String LF line) with (body ++ nl ++ line).
    now rewrite (strip_prompt_split_last _ _ Hl).
  - exists output. split; [exact H|]. left. split; [reflexivity|].
    unfold _strip_prompt. now rewrite (str_split_no_sep _ _ H).
Qed.

(** X20. What a caller gets for a command written without its newline.
    When the device echoes the command with its newline, then prints some
    output and a prompt line, and no backspace occurs, the two sanitizer
    steps return the output behind the newline of the echo: that newline
    stays at the head of the result.  With nothing between the echo and the
    prompt the result is empty. *)
Theorem sanitize_echoed_command (cmd body prompt : string) :
  str_contains BS (cmd ++ nl ++ body ++ nl ++ prompt) = false ->
  str_contains LF prompt = false ->
  sanitize true true cmd (cmd ++ nl ++ body ++ nl ++ prompt) = nl ++ body
  /\ sanitize true true cmd (cmd ++ nl ++ prompt) = "".
Proof.
  intros Hb Hp. unfold sanitize.
  assert (Hb' : str_contains BS (cmd ++ nl ++ prompt) = false).
  { rewrite !str_contains_app in *.
    apply orb_false_elim in Hb as [H1 Hb]. apply orb_false_elim in Hb as [H2 Hb].
    apply orb_false_elim in Hb as [_ Hb]. apply orb_false_elim in Hb as [_ H3].
    now rewrite H1, H2, H3. }
  rewrite (strip_command_no_backspace _ _ Hb), (strip_command_no_backspace _ _ Hb').
  rewrite !str_drop_app. split.
  - rewrite <- str_append_assoc. now apply strip_prompt_split_last.
  - change (nl ++ prompt) with ("" ++ nl ++ prompt). now apply strip_prompt_split_last.
Qed.

Lemma sanitize_echoed_command_witness :
  sanitize true true "show version" ("show version" ++ nl ++ "12.4" ++ nl ++ "Router>")
  = nl ++ "12.4"
  /\ sanitize true true "show version" ("show version" ++ nl ++ "Router>") = "".
Proof. apply (sanitize_echoed_command "show version" "12.4" "Router>"); reflexivity. Defined.

Section PatternErrors.

Variable re_search : string -> string -> Z -> option bool.

(** X21. A pattern that cannot be used is reported when its turn comes:
    behind string patterns that are not found in the buffer, a pattern that
    is no string raises [TypeError] and a string the matcher refuses raises
    the matcher's error, whatever patterns follow. *)
Theorem search_any_bad_pattern
    (ps : list string) (bad : pyval) (behind : list pyval) (output : string) (fl : Z) :
  (forall p, In p ps -> re_search p output fl = Some false) ->
  (isinstance_str bad = false ->
   search_any re_search (map PyStr ps ++ bad :: behind) output fl = Raise TypeError)
  /\ (forall q, bad = PyStr q -> re_search q output fl = None ->
      search_any re_search (map PyStr ps ++ bad :: behind) output fl = Raise ReError).
Proof.
  intros H. induction ps as [|p ps IH].
  - cbn [map app search_any]. split.
    + intros Hbad. destruct bad; try discriminate Hbad; reflexivity.
    + intros q -> Hq. cbn [py_re_search]. now rewrite Hq.
  - cbn [map app search_any py_re_search]. rewrite (H p (or_introl eq_refl)).
    apply IH. intros q Hq. apply H. now right.
Qed.

End PatternErrors.

Lemma search_any_bad_pattern_witness :
  search_any re_search_model (map PyStr ["More"] ++ [PyInt 1; PyStr "host\#"])
    ("10.0.0.1" ++ nl ++ "host#") 0 = Raise TypeError.
Proof.
  destruct (search_any_bad_pattern re_search_model ["More"] (PyInt 1) [PyStr "host\#"]
              ("10.0.0.1" ++ nl ++ "host#") 0) as [H _].
  - intros p [<- | []]. vm_compute. reflexivity.
  - apply H. reflexivity.
Defined.
